(** * Materials dashboard: the filter, the weights and the rankings

    A shallow embedding of [updated_website_0704.py].  The functions the
    dashboard defines itself ([filter_dataframe], [calculate_weights], the
    manual weight normalisation of [main]) are transcribed from the Python.
    The MCDA engine they call (TOPSIS, PROMETHEE II, entropy weights and
    the ranking helper) comes from the [pymcdm] package, whose code is not
    part of the repository: those definitions follow the design
    specification and say so.

    Numbers.  A data frame cell is a rational number or the missing value
    [NaN]; comparisons with [NaN] are false, as for IEEE floats.  The
    engine works over the real numbers: sums, quotients and square roots
    are exact, so "within tolerance" reads as equality. *)

From Stdlib Require Import QArith Reals RList Lra.
From stdpp Require Import gmap strings list sorting.

Local Open Scope string_scope.

(** ** Data frames *)

(** A cell of a numeric column. *)
Inductive cell : Type :=
  | NaN : cell
  | Num : Q -> cell.

(** A row of the materials table.  The four columns the filter reads and
    the name are fields; every other column ("Production (ton)",
    "Reserve (ton)", ...) is kept in [other]. *)
Record row : Type := mkRow {
  Name : string;
  Bandgap : cell;
  ESG_Score : cell;
  Toxicity : cell;
  CO2_footprint_max : cell;
  other : gmap string cell
}.

Abbreviation DataFrame := (list row) (only parsing).

(** [_df[key]] seen from one row. *)
Definition get_col (key : string) (r : row) : option cell :=
  if String.eqb key "Bandgap" then Some (Bandgap r)
  else if String.eqb key "ESG Score" then Some (ESG_Score r)
  else if String.eqb key "Toxicity" then Some (Toxicity r)
  else if String.eqb key "CO2 footprint max (kg/kg)" then Some (CO2_footprint_max r)
  else other r !! key.

(** Comparisons of cells: false as soon as one side is missing. *)
Definition cell_leb (a b : cell) : bool :=
  match a, b with
  | Num x, Num y => Qle_bool x y
  | _, _ => false
  end.

Definition cell_geb (a b : cell) : bool := cell_leb b a.

(** [Series.min()] and [Series.max()]: missing values are skipped, and the
    result is missing when nothing is left. *)
Definition cell_min (a b : cell) : cell :=
  match a, b with
  | NaN, _ => b
  | _, NaN => a
  | Num x, Num y => if Qle_bool x y then a else b
  end.

Definition cell_max (a b : cell) : cell :=
  match a, b with
  | NaN, _ => b
  | _, NaN => a
  | Num x, Num y => if Qle_bool x y then b else a
  end.

Definition series_min (s : list cell) : cell := foldr cell_min NaN s.
Definition series_max (s : list cell) : cell := foldr cell_max NaN s.

Definition column (f : row -> cell) (df : DataFrame) : list cell := map f df.

(** [Series.between(left, right, inclusive='both')] at one entry:
    [(x >= left) & (x <= right)]. *)
Definition between (x : cell) (range : cell * cell) : bool :=
  cell_geb x (fst range) && cell_leb x (snd range).

(** [Series.isin(values)] at one entry. *)
Definition isin (n : string) (values : list string) : bool :=
  existsb (String.eqb n) values.

(** ** The filter *)

(** [filters.get(key, (min, max))] for the column read by [f]. *)
Definition range_of (filters : gmap string (cell * cell)) (key : string)
    (f : row -> cell) (df : DataFrame) : cell * cell :=
  default (series_min (column f df), series_max (column f df)) (filters !! key).

(** [filter_dataframe(_df, filters, selected_names=None)]: the body of the
    function.  The [st.cache_data] memoisation around it is
    [filter_dataframe_cached], further down. *)
Definition filter_dataframe (_df : DataFrame)
    (filters : gmap string (cell * cell))
    (selected_names : option (list string)) : DataFrame :=
  let bandgap_range := range_of filters "Bandgap" Bandgap _df in
  let esg_range := range_of filters "ESG Score" ESG_Score _df in
  let toxicity_range := range_of filters "Toxicity" Toxicity _df in
  let co2_range :=
    range_of filters "CO2 footprint max (kg/kg)" CO2_footprint_max _df in
  let filtered :=
    List.filter (fun r =>
      between (Bandgap r) bandgap_range &&
      between (ESG_Score r) esg_range &&
      between (Toxicity r) toxicity_range &&
      between (CO2_footprint_max r) co2_range) _df in
  match selected_names with
  | Some names => List.filter (fun r => isin (Name r) names) filtered
  | None => filtered
  end.

(** ** What the filter keeps *)

(** A value passes a column when it is present and, if the column has a
    rule, lies between the two bounds of the rule (both included). *)
Definition in_range (x : cell) (rule : option (cell * cell)) : Prop :=
  match x, rule with
  | NaN, _ => False
  | Num _, None => True
  | Num q, Some (Num lo, Num hi) => (lo <= q)%Q ∧ (q <= hi)%Q
  | Num _, Some _ => False
  end.

Definition name_allowed (n : string) (names : option (list string)) : Prop :=
  match names with
  | Some ns => n ∈ ns
  | None => True
  end.

(** The rows [filter_dataframe] keeps. *)
Definition admitted (filters : gmap string (cell * cell))
    (names : option (list string)) (r : row) : Prop :=
  in_range (Bandgap r) (filters !! "Bandgap") ∧
  in_range (ESG_Score r) (filters !! "ESG Score") ∧
  in_range (Toxicity r) (filters !! "Toxicity") ∧
  in_range (CO2_footprint_max r) (filters !! "CO2 footprint max (kg/kg)") ∧
  name_allowed (Name r) names.

(** The criteria [filter_dataframe] has a rule for. *)
Definition filter_keys : list string :=
  ["Bandgap"; "ESG Score"; "Toxicity"; "CO2 footprint max (kg/kg)"].

(** The reading of the contract that takes every supplied rule at its
    word: each rule whose column the row has must hold, a column without
    a rule is not looked at. *)
Definition satisfies_rules (filters : gmap string (cell * cell))
    (names : option (list string)) (r : row) : Prop :=
  (∀ key range x, filters !! key = Some range → get_col key r = Some x →
     between x range = true) ∧
  name_allowed (Name r) names.

Definition present (x : cell) : Prop := x ≠ NaN.

Definition no_missing (r : row) : Prop :=
  present (Bandgap r) ∧ present (ESG_Score r) ∧ present (Toxicity r) ∧
  present (CO2_footprint_max r).

Global Instance in_range_dec x rule : Decision (in_range x rule).
Proof.
  destruct x as [|q]; [right; tauto|].
  destruct rule as [[[|lo] [|hi]]|]; simpl;
    try (right; tauto); try (left; exact I).
  destruct (Qle_bool lo q) eqn:E1; destruct (Qle_bool q hi) eqn:E2;
    try (left; split; apply Qle_bool_iff; assumption);
    right; intros [H1 H2];
    apply Qle_bool_iff in H1; apply Qle_bool_iff in H2; congruence.
Defined.

Global Instance name_allowed_dec n names : Decision (name_allowed n names).
Proof. destruct names; simpl; apply _. Defined.

Global Instance admitted_dec filters names r : Decision (admitted filters names r).
Proof. unfold admitted. apply _. Defined.

(** A row of silicon whose ESG score is missing. *)
Definition si_row : row :=
  mkRow "Si" (Num (11 # 10)) NaN (Num 1) (Num 2) ∅.

(** Two complete rows, and a small dataset. *)
Definition tio2_row : row :=
  mkRow "TiO2" (Num (32 # 10)) (Num 2) (Num 1) (Num 5)
        {["Production (ton)" := Num 9000]}.

Definition zno_row : row :=
  mkRow "ZnO" (Num (33 # 10)) (Num (5 # 2)) (Num 2) (Num 3)
        {["Production (ton)" := Num 13000]}.

Definition sample_df : DataFrame := [si_row; tio2_row; zno_row].

(** A rule on the bandgap alone. *)
Definition bandgap_rule : gmap string (cell * cell) :=
  {["Bandgap" := (Num 3, Num (32 # 10))]}.

(** ** Weights *)

(** A criteria matrix: one list per material, one real per criterion. *)
Abbreviation matrix := (list (list R)) (only parsing).

(** The sum of a list of reals. *)
Definition Rsum (l : list R) : R := foldr Rplus 0%R l.

Section calculate_weights.

(** [pymcdm.weights.entropy_weights], whatever it computes. *)
Context {W : Type} (entropy_weights : matrix → W).

(** [calculate_weights(matrix, method="entropy")]; Python's [None] is
    [None]. *)
Definition calculate_weights (m : matrix) (method : string) : option W :=
  if String.eqb method "entropy" then Some (entropy_weights m) else None.

End calculate_weights.

(** [sum(weights)] on the slider values. *)
Definition Zsum (l : list Z) : Z := foldr Z.add 0%Z l.

(** The normalisation of the slider values in [main]:
    [np.ones(len(weights)) / len(weights)] when they sum to zero,
    [np.array(weights) / sum(weights)] otherwise. *)
Definition manual_weights (weights : list Z) : list R :=
  if Z.eqb (Zsum weights) 0
  then map (λ one, one / INR (length weights))%R (repeat 1%R (length weights))
  else map (λ w, IZR w / IZR (Zsum weights))%R weights.

(** The length, sign and sum contract of a weight vector. *)
Definition weight_contract (n : nat) (w : list R) : Prop :=
  length w = n ∧ Forall (λ x, 0 <= x)%R w ∧ Rsum w = 1%R.

(** ** The MCDA engine *)

(** The direction of a criterion, the values of [criteria_options] in
    [main]: [1] (benefit, higher is better) or [-1] (cost, lower is
    better). *)
Inductive direction : Type :=
  | Benefit : direction
  | Cost : direction.

(** Modelled from the spec: the engine's failures are raised inside
    [pymcdm], which is missing; these are the error kinds of section 7. *)
Inductive error : Type :=
  | DimensionMismatch : error
  | InvalidWeights : error
  | InsufficientData : error.

(** A result of the engine, or its failure. *)
Inductive result (A : Type) : Type :=
  | Ok : A → result A
  | Err : error → result A.

Arguments Ok {A} _.
Arguments Err {A} _.

(** The test [x < y] on reals. *)
Definition Rltb (x y : R) : bool := if Rlt_dec x y then true else false.

(** Entry [c] of a row, and column [c] of a matrix. *)
Definition entry (r : list R) (c : nat) : R := nth c r 0%R.
Definition col (c : nat) (m : matrix) : list R := map (λ r, entry r c) m.

(** Modelled from the spec: the validation of [pymcdm] is missing;
    section 4.3 asks that every row have as many entries as there are
    weights and directions. *)
Definition rectangular (m : matrix) (weights : list R)
    (directions : list direction) : bool :=
  Nat.eqb (length directions) (length weights) &&
  forallb (λ r, Nat.eqb (length r) (length weights)) m.

(** *** Entropy weights *)

(** Modelled from the spec: [pymcdm.weights.entropy_weights] is missing;
    this is one term [p ln p] of the Shannon entropy of section 4.2.  [ln]
    is [0] outside the positive reals, so the term of [p = 0] is [0]. *)
Definition plogp (p : R) : R := (p * ln p)%R.

(** Modelled from the spec: [pymcdm.weights.entropy_weights] is missing;
    this is the entropy of one column of section 4.2.  The values are
    divided by the column sum and a column that sums to zero gets the
    defined entropy [0].  The Shannon entropy is taken relative to its
    maximum [ln m] over [m] rows, the scale on which [1 - entropy] is a
    degree of diversification. *)
Definition column_entropy (c : list R) : R :=
  if Req_dec_T (Rsum c) 0 then 0%R
  else (- Rsum (map (λ x, plogp (x / Rsum c)) c) / ln (INR (length c)))%R.

(** The number of criteria of a matrix: the length of its rows. *)
Definition criteria_count (m : matrix) : nat :=
  match m with
  | [] => 0
  | r :: _ => length r
  end.

(** Modelled from the spec: [pymcdm.weights.entropy_weights] is missing;
    these are the diversification degrees [1 - entropy] of section 4.2,
    one per column. *)
Definition diversification (m : matrix) : list R :=
  map (λ c, 1 - column_entropy (col c m))%R (seq 0 (criteria_count m)).

(** Modelled from the spec: [pymcdm.weights.entropy_weights] is missing;
    section 4.2 normalises the diversification degrees [1 - entropy] of
    the columns so that they sum to 1. *)
Definition entropy_weights (m : matrix) : list R :=
  map (λ d, d / Rsum (diversification m))%R (diversification m).

(** The choice of the weights in [main]: entropy weights for TOPSIS with
    "Entropy Weighting", the normalised slider values otherwise. *)
Definition assign_weights (mcdm_method weighting_method : string)
    (m : matrix) (sliders : list Z) : list R :=
  if String.eqb mcdm_method "TOPSIS" &&
     String.eqb weighting_method "Entropy Weighting"
  then entropy_weights m
  else manual_weights sliders.

(** What [main] hands to the weight assignment for [n] criteria: for the
    entropy weights a matrix of [n] non-negative columns over two rows or
    more whose diversification degrees do not all vanish, for the manual
    weights [n >= 1] slider values, none negative. *)
Definition weights_ready (mcdm_method weighting_method : string)
    (m : matrix) (sliders : list Z) (n : nat) : Prop :=
  if String.eqb mcdm_method "TOPSIS" &&
     String.eqb weighting_method "Entropy Weighting"
  then criteria_count m = n ∧ (2 ≤ length m)%nat ∧
       Forall (Forall (λ x, 0 <= x)%R) m ∧ Rsum (diversification m) ≠ 0%R
  else length sliders = n ∧ (0 < n)%nat ∧ Forall (λ z, 0 ≤ z)%Z sliders.

(** *** TOPSIS *)

(** Modelled from the spec: [pymcdm.methods.TOPSIS] is missing; this is
    the Euclidean norm of a column, of step 1 of section 4.3. *)
Definition norm (c : list R) : R := sqrt (Rsum (map (λ x, x * x)%R c)).

(** Modelled from the spec: [pymcdm.methods.TOPSIS] is missing; this is
    the Euclidean distance of two rows, of step 3 of section 4.3. *)
Definition distance (a b : list R) : R :=
  sqrt (Rsum (zip_with (λ x y, (x - y) * (x - y))%R a b)).

(** Modelled from the spec: [pymcdm.methods.TOPSIS] is missing; step 1
    divides an entry [x] of column [c] by the norm of the column and
    multiplies it by the weight of the column. *)
Definition rescale (m : matrix) (weights : list R) (c : nat) (x : R) : R :=
  (x / norm (col c m) * entry weights c)%R.

(** Modelled from the spec: step 1 on one row, one entry per weight. *)
Definition weighted_row (m : matrix) (weights : list R) (r : list R) : list R :=
  map (λ c, rescale m weights c (entry r c)) (seq 0 (length weights)).

(** Modelled from the spec: step 1 on every row. *)
Definition weighted_matrix (m : matrix) (weights : list R) : matrix :=
  map (weighted_row m weights) m.

(** Modelled from the spec: [pymcdm.methods.TOPSIS] is missing; step 2
    takes as ideal best the maximum of a benefit column and the minimum
    of a cost column. *)
Definition ideal_best (v : matrix) (directions : list direction) : list R :=
  imap (λ c d, match d with
               | Benefit => MaxRlist (col c v)
               | Cost => MinRlist (col c v)
               end) directions.

(** Modelled from the spec: [pymcdm.methods.TOPSIS] is missing; step 2
    takes as ideal worst the minimum of a benefit column and the maximum
    of a cost column. *)
Definition ideal_worst (v : matrix) (directions : list direction) : list R :=
  imap (λ c d, match d with
               | Benefit => MinRlist (col c v)
               | Cost => MaxRlist (col c v)
               end) directions.

(** Modelled from the spec: [pymcdm.methods.TOPSIS] is missing; step 4
    is [d- / (d+ + d-)], and [0] when both distances vanish. *)
Definition closeness (d_plus d_minus : R) : R :=
  if Req_dec_T (d_plus + d_minus) 0 then 0%R
  else (d_minus / (d_plus + d_minus))%R.

(** Modelled from the spec: [pymcdm.methods.TOPSIS] is missing; steps 1
    to 4 give each row its distances to the two ideals (step 3) and its
    score. *)
Definition topsis_scores (m : matrix) (weights : list R)
    (directions : list direction) : list R :=
  let v := weighted_matrix m weights in
  map (λ r, closeness (distance r (ideal_best v directions))
                      (distance r (ideal_worst v directions))) v.

(** Modelled from the spec: [pymcdm.methods.TOPSIS] is missing; these are
    steps 1 to 4 of section 4.3, behind the dimension check of the same
    section. *)
Definition TOPSIS (m : matrix) (weights : list R)
    (directions : list direction) : result (list R) :=
  if rectangular m weights directions
  then Ok (topsis_scores m weights directions)
  else Err DimensionMismatch.

(** [run_topsis(matrix, weights, criteria_types)]. *)
Definition run_topsis (m : matrix) (weights : list R)
    (criteria_types : list direction) : result (list R) :=
  TOPSIS m weights criteria_types.

(** *** PROMETHEE II *)

(** Modelled from the spec: [pymcdm.methods.PROMETHEE_II] is missing;
    step 1 is the difference of two values, turned so that positive means
    the first is preferred. *)
Definition scaled_difference (d : direction) (x_i x_j : R) : R :=
  match d with
  | Benefit => (x_i - x_j)%R
  | Cost => (x_j - x_i)%R
  end.

(** Modelled from the spec: [pymcdm.methods.PROMETHEE_II] is missing;
    step 2 is the usual preference function, 1 on a strictly positive
    difference and 0 elsewhere. *)
Definition usual (d : R) : R := if Rlt_dec 0 d then 1%R else 0%R.

(** Modelled from the spec: [pymcdm.methods.PROMETHEE_II] is missing;
    step 3 is the weighted aggregated preference of row [r_i] over
    [r_j]. *)
Definition aggregated_preference (preference : R → R) (weights : list R)
    (directions : list direction) (r_i r_j : list R) : R :=
  Rsum (imap (λ c d, entry weights c *
                     preference (scaled_difference d (entry r_i c) (entry r_j c)))%R
             directions).

(** Modelled from the spec: [pymcdm.methods.PROMETHEE_II] is missing;
    step 4 is the leaving flow [(1/(n-1)) Σ_j π(i,j)] of a row. *)
Definition leaving_flow (preference : R → R) (m : matrix) (weights : list R)
    (directions : list direction) (r_i : list R) : R :=
  (1 / (INR (length m) - 1) *
   Rsum (map (λ r_j, aggregated_preference preference weights directions r_i r_j) m))%R.

(** Modelled from the spec: [pymcdm.methods.PROMETHEE_II] is missing;
    step 4 is the entering flow [(1/(n-1)) Σ_j π(j,i)] of a row. *)
Definition entering_flow (preference : R → R) (m : matrix) (weights : list R)
    (directions : list direction) (r_i : list R) : R :=
  (1 / (INR (length m) - 1) *
   Rsum (map (λ r_j, aggregated_preference preference weights directions r_j r_i) m))%R.

(** Modelled from the spec: [pymcdm.methods.PROMETHEE_II] is missing;
    step 4 is the net flow, leaving minus entering, of every row. *)
Definition net_flows (preference : R → R) (m : matrix) (weights : list R)
    (directions : list direction) : list R :=
  map (λ r_i, leaving_flow preference m weights directions r_i -
              entering_flow preference m weights directions r_i)%R m.

(** Modelled from the spec: [pymcdm.methods.PROMETHEE_II] is missing;
    these are steps 1 to 4 of section 4.3.  Fewer than two rows leave the
    divisor [n - 1] undefined and fail with [InsufficientData]; a matrix
    that is not rectangular fails with [DimensionMismatch]. *)
Definition PROMETHEE_II (preference : R → R) (m : matrix) (weights : list R)
    (directions : list direction) : result (list R) :=
  if Nat.ltb (length m) 2 then Err InsufficientData
  else if rectangular m weights directions
  then Ok (net_flows preference m weights directions)
  else Err DimensionMismatch.

(** [run_promethee(matrix, weights, criteria_types)], with the
    preference function ['usual']. *)
Definition run_promethee (m : matrix) (weights : list R)
    (criteria_types : list direction) : result (list R) :=
  PROMETHEE_II usual m weights criteria_types.

(** *** PROMETHEE II as the dashboard reaches it *)

(** [run_promethee] in the source builds [PROMETHEE_II('usual')] and hands
    it the matrix, the weights and the types as they come: it counts no
    rows and raises nothing of its own, and [main] calls it whenever the
    filtered frame is not empty, a frame of one row included.  The test
    on the number of rows in [PROMETHEE_II] above comes from section 4.3
    alone.  The definitions below are the same flows without that test,
    on floats: in [numpy] a quotient by zero is no exception, it gives
    [nan] or an infinity. *)

(** The quotient [x / y] of two floats; [None] stands for [nan] and the
    infinities, what [numpy] gives when [y] is zero. *)
Definition quotient (x y : R) : option R :=
  if Req_dec_T y 0 then None else Some (x / y)%R.

(** Modelled from the spec: [pymcdm.methods.PROMETHEE_II] is missing;
    step 4 is the leaving flow [(1/(n-1)) Σ_j π(i,j)] of a row, the factor
    [1/(n-1)] being a quotient of floats. *)
Definition leaving_flow_unguarded (preference : R → R) (m : matrix)
    (weights : list R) (directions : list direction) (r_i : list R) : option R :=
  (λ k, k * Rsum (map (λ r_j, aggregated_preference preference weights
                                 directions r_i r_j) m))%R
  <$> quotient 1 (INR (length m) - 1).

(** Modelled from the spec: [pymcdm.methods.PROMETHEE_II] is missing;
    step 4 is the entering flow [(1/(n-1)) Σ_j π(j,i)] of a row, the
    factor [1/(n-1)] being a quotient of floats. *)
Definition entering_flow_unguarded (preference : R → R) (m : matrix)
    (weights : list R) (directions : list direction) (r_i : list R) : option R :=
  (λ k, k * Rsum (map (λ r_j, aggregated_preference preference weights
                                 directions r_j r_i) m))%R
  <$> quotient 1 (INR (length m) - 1).

(** Modelled from the spec: [pymcdm.methods.PROMETHEE_II] is missing;
    step 4 is the net flow, leaving minus entering, of every row; the
    difference is a number when both flows are. *)
Definition net_flows_unguarded (preference : R → R) (m : matrix)
    (weights : list R) (directions : list direction) : list (option R) :=
  map (λ r_i,
         match leaving_flow_unguarded preference m weights directions r_i,
               entering_flow_unguarded preference m weights directions r_i with
         | Some leaving, Some entering => Some (leaving - entering)%R
         | _, _ => None
         end) m.

(** Modelled from the spec: [pymcdm.methods.PROMETHEE_II] is missing;
    these are steps 1 to 4 of section 4.3 with no test on the number of
    rows: a matrix that is not rectangular fails with
    [DimensionMismatch], every other matrix gets its net flows. *)
Definition PROMETHEE_II_unguarded (preference : R → R) (m : matrix)
    (weights : list R) (directions : list direction) :
    result (list (option R)) :=
  if rectangular m weights directions
  then Ok (net_flows_unguarded preference m weights directions)
  else Err DimensionMismatch.

(** [run_promethee(matrix, weights, criteria_types)] on that engine: the
    preference function ['usual'], and nothing added to the call. *)
Definition run_promethee_unguarded (m : matrix) (weights : list R)
    (criteria_types : list direction) : result (list (option R)) :=
  PROMETHEE_II_unguarded usual m weights criteria_types.

(** *** Ranks *)

(** Modelled from the spec: [pymcdm.helpers.rankdata] is missing; section
    4.3 gives equal scores equal ranks and the next score its 1-based
    position, every tied row taking one slot.  With [reverse] the best
    rank goes to the highest score. *)
Definition rankdata (a : list R) (reverse : bool) : list nat :=
  map (λ s, S (length (List.filter
                 (λ t, if reverse then Rltb s t else Rltb t s) a))) a.

(** The ranks of [main]: [rankdata(scores, reverse=True).astype(int)]. *)
Definition ranks_of (scores : list R) : list nat := rankdata scores true.

(** The scenario of section 8. *)
Definition scenario_matrix : matrix :=
  [[1; 2]; [2; 1]; [3 / 2; 3 / 2]]%R.
Definition scenario_weights : list R := [1 / 2; 1 / 2]%R.
Definition scenario_directions : list direction := [Benefit; Cost].

(** The weighted entry of the value 1 in the scenario: both columns have
    norm [sqrt (29 / 4)] and weight [1 / 2]. *)
Definition scenario_scale : R := (/ sqrt (29 / 4) * (1 / 2))%R.

(** * More of the dashboard *)

(** ** Rules that narrow other rules *)

(** The rule [inner] of a column lets through no more than the rule
    [outer]: [outer] is absent, or both are ranges of numbers and the
    bounds of [inner] lie within those of [outer]. *)
Definition rule_within (inner outer : option (cell * cell)) : Prop :=
  match outer, inner with
  | None, _ => True
  | Some (Num lo1, Num hi1), Some (Num lo2, Num hi2) =>
      (lo1 <= lo2)%Q ∧ (hi2 <= hi1)%Q
  | Some _, _ => False
  end.

(** The same for the name lists. *)
Definition names_within (inner outer : option (list string)) : Prop :=
  match outer, inner with
  | None, _ => True
  | Some ns1, Some ns2 => ns2 ⊆ ns1
  | Some _, None => False
  end.

(** A slider range as a rule: both bounds are numbers. *)
Definition rule (range : Q * Q) : cell * cell :=
  (Num (fst range), Num (snd range)).

(** ** The Bandgap Analysis page *)

(** The dictionary [filters] of the page: rules on ESG Score, Toxicity
    and CO2 footprint, none on the bandgap. *)
Definition bandgap_page_filters (esg_range toxicity_range co2_range : Q * Q) :
    gmap string (cell * cell) :=
  list_to_map [("ESG Score", rule esg_range);
               ("Toxicity", rule toxicity_range);
               ("CO2 footprint max (kg/kg)", rule co2_range)].

(** [filter_dataframe(df1, filters, selected_names if selected_names else
    None)]: an empty selection is no selection.  The colour column the
    page adds to [df1] before the call is a column the filter does not
    read. *)
Definition bandgap_page_filtered (df1 : DataFrame)
    (esg_range toxicity_range co2_range : Q * Q)
    (selected_names : list string) : DataFrame :=
  filter_dataframe df1
    (bandgap_page_filters esg_range toxicity_range co2_range)
    (match selected_names with
     | [] => None
     | _ :: _ => Some selected_names
     end).

(** ** The filters kept in the session *)

(** The part of [st.session_state] the pages share: [filters], absent
    until a page creates it, and [bandgap_selected], read with
    [get('bandgap_selected', False)]. *)
Record session : Type := mkSession {
  session_filters : option (gmap string (cell * cell));
  bandgap_selected : bool
}.

Definition new_session : session := mkSession None false.

(** [d.update({k1: v1, ...})] with distinct keys. *)
Definition dict_update (new : list (string * (cell * cell)))
    (d : gmap string (cell * cell)) : gmap string (cell * cell) :=
  list_to_map new ∪ d.

(** One run of the Custom Analysis page: [filters] is created empty when
    absent, and the button "Apply Filters" stores the four sliders. *)
Definition custom_analysis (apply_filters : bool)
    (bandgap_range esg_range toxicity_range production_range : Q * Q)
    (s : session) : session :=
  let filters := default ∅ (session_filters s) in
  let filters :=
    if apply_filters
    then dict_update [("Bandgap", rule bandgap_range);
                      ("ESG Score", rule esg_range);
                      ("Toxicity", rule toxicity_range);
                      ("Production (ton)", rule production_range)] filters
    else filters in
  mkSession (Some filters) (bandgap_selected s).

(** One run of the MCDM Analysis page: [filters] and [bandgap_selected]
    are created when [filters] is absent, the button "Apply Bandgap
    Filter" stores the bandgap range and sets [bandgap_selected], and
    once [bandgap_selected] holds the three further sliders are stored at
    every run. *)
Definition mcdm_analysis (apply_bandgap : bool)
    (bandgap_range esg_range toxicity_range production_range : Q * Q)
    (s : session) : session :=
  let '(filters, selected) :=
    match session_filters s with
    | None => (∅, false)
    | Some filters => (filters, bandgap_selected s)
    end in
  let '(filters, selected) :=
    if apply_bandgap
    then (<["Bandgap" := rule bandgap_range]> filters, true)
    else (filters, selected) in
  let filters :=
    if selected
    then dict_update [("ESG Score", rule esg_range);
                      ("Toxicity", rule toxicity_range);
                      ("Production (ton)", rule production_range)] filters
    else filters in
  mkSession (Some filters) selected.

(** A run of the script: the page shown, with the state of its button and
    of its sliders.  The Home and Bandgap Analysis pages leave the session
    alone. *)
Inductive rerun : Type :=
  | Home : rerun
  | BandgapAnalysis : rerun
  | CustomAnalysis (apply_filters : bool)
      (bandgap_range esg_range toxicity_range production_range : Q * Q) : rerun
  | MCDMAnalysis (apply_bandgap : bool)
      (bandgap_range esg_range toxicity_range production_range : Q * Q) : rerun.

Definition step (s : session) (ev : rerun) : session :=
  match ev with
  | Home | BandgapAnalysis => s
  | CustomAnalysis a b e t p => custom_analysis a b e t p s
  | MCDMAnalysis a b e t p => mcdm_analysis a b e t p s
  end.

(** The session after a sequence of runs. *)
Definition run (evs : list rerun) : session := foldl step new_session evs.

(** The candidates of the MCDM page: [filter_dataframe(df,
    st.session_state.filters)], computed once [bandgap_selected] holds. *)
Definition mcdm_filtered (df : DataFrame) (s : session) : option DataFrame :=
  if bandgap_selected s
  then Some (filter_dataframe df (default ∅ (session_filters s)) None)
  else None.

(** The keys the pages store rules under. *)
Definition session_keys : list string :=
  ["Bandgap"; "ESG Score"; "Toxicity"; "Production (ton)"].

(** Every rule of the session is under one of the four keys and has
    numbers for bounds. *)
Definition good_rules (filters : gmap string (cell * cell)) : Prop :=
  ∀ key range, filters !! key = Some range →
    key ∈ session_keys ∧ ∃ q, range = rule q.

(** What the pages keep true of the session: the rules are good, and
    [bandgap_selected] is only set with rules on the bandgap, the ESG
    score and the toxicity in place. *)
Definition session_invariant (s : session) : Prop :=
  match session_filters s with
  | None => bandgap_selected s = false
  | Some filters =>
      good_rules filters ∧
      (bandgap_selected s = true →
         is_Some (filters !! "Bandgap") ∧ is_Some (filters !! "ESG Score") ∧
         is_Some (filters !! "Toxicity"))
  end.

(** ** The memoised filter *)

(** [filter_dataframe] is decorated with [@st.cache_data]: Streamlit
    keeps the frames the function has returned, each under the arguments
    of the call that computed it, and answers a call whose arguments it
    has seen with the frame it kept.  An argument whose name starts with
    an underscore is left out of what is compared, here [_df]: a call is
    told from another by [filters] and [selected_names] alone.  The
    arguments compared are those the call gives; a default value is not
    filled in, so a call that leaves [selected_names] out and a call that
    gives [None] are kept apart.  Nothing is dropped from the cache, the
    decorator setting neither [ttl] nor [max_entries]. *)

(** An argument that has a default value, as a call gives it or leaves
    it out. *)
Inductive optional (A : Type) : Type :=
  | Omitted : optional A
  | Given : A → optional A.

Arguments Omitted {A}.
Arguments Given {A} _.

Global Instance optional_eq_dec {A} `{EqDecision A} : EqDecision (optional A).
Proof. solve_decision. Defined.

(** [selected_names] as the body sees it: [None] when left out. *)
Definition names_of (selected_names : optional (option (list string))) :
    option (list string) :=
  match selected_names with
  | Omitted => None
  | Given names => names
  end.

(** Two cells hold the same float. *)
Definition cell_eqb (a b : cell) : bool :=
  match a, b with
  | NaN, NaN => true
  | Num x, Num y => Qeq_bool x y
  | _, _ => false
  end.

(** Two dictionaries of rules, given by their items in the order of
    insertion, have the same items in the same order. *)
Fixpoint items_eqb (d1 d2 : list (string * (cell * cell))) : bool :=
  match d1, d2 with
  | [], [] => true
  | (key1, (lo1, hi1)) :: d1, (key2, (lo2, hi2)) :: d2 =>
      String.eqb key1 key2 && cell_eqb lo1 lo2 && cell_eqb hi1 hi2 &&
      items_eqb d1 d2
  | _, _ => false
  end.

(** What a call is filed under: the items of [filters] and
    [selected_names]. *)
Definition cache_key : Type :=
  list (string * (cell * cell)) * optional (option (list string)).

Definition key_eqb (k1 k2 : cache_key) : bool :=
  items_eqb (fst k1) (fst k2) && bool_decide (snd k1 = snd k2).

(** The frames kept so far, the latest first. *)
Definition cache : Type := list (cache_key * DataFrame).

Fixpoint cache_lookup (k : cache_key) (c : cache) : option DataFrame :=
  match c with
  | [] => None
  | (k', frame) :: c => if key_eqb k' k then Some frame else cache_lookup k c
  end.

(** [filter_dataframe(_df, filters, selected_names)] and
    [filter_dataframe(_df, filters)] as the pages call them: the frame
    kept under [filters] and [selected_names] when there is one, and
    otherwise the frame the body computes on [_df], which is kept from
    then on.  The dictionary [filters] is given by its items. *)
Definition filter_dataframe_cached (c : cache) (_df : DataFrame)
    (filters : list (string * (cell * cell)))
    (selected_names : optional (option (list string))) : DataFrame * cache :=
  match cache_lookup (filters, selected_names) c with
  | Some frame => (frame, c)
  | None =>
      let frame :=
        filter_dataframe _df (list_to_map filters) (names_of selected_names) in
      (frame, ((filters, selected_names), frame) :: c)
  end.

(** Calls made one after the other, each on the cache the one before
    left: the frames returned, and the cache at the end. *)
Fixpoint calls_cached (c : cache) (calls : list (DataFrame * cache_key)) :
    list DataFrame * cache :=
  match calls with
  | [] => ([], c)
  | (_df, (filters, selected_names)) :: calls =>
      let '(frame, c) := filter_dataframe_cached c _df filters selected_names in
      let '(frames, c) := calls_cached c calls in
      (frame :: frames, c)
  end.

(** The items of the dictionary [filters] of the Bandgap Analysis page,
    in the order of the literal. *)
Definition bandgap_page_items (esg_range toxicity_range co2_range : Q * Q) :
    list (string * (cell * cell)) :=
  [("ESG Score", rule esg_range);
   ("Toxicity", rule toxicity_range);
   ("CO2 footprint max (kg/kg)", rule co2_range)].

(** The calls of [filter_dataframe] in [main], on the two datasets [df]
    and [df1] the program loads once: the Bandgap Analysis page filters
    [df1] with its own dictionary and the names selected, an empty
    selection being given as [None]; the Custom Analysis and the MCDM
    Analysis pages filter [df] with the dictionary of the session,
    whatever the order of its items, and leave the names out. *)
Inductive page_call (df df1 : DataFrame) : DataFrame * cache_key → Prop :=
  | bandgap_page_call (esg_range toxicity_range co2_range : Q * Q)
      (selected_names : list string) :
      page_call df df1
        (df1, (bandgap_page_items esg_range toxicity_range co2_range,
               Given (match selected_names with
                      | [] => None
                      | _ :: _ => Some selected_names
                      end)))
  | session_page_call (evs : list rerun)
      (items : list (string * (cell * cell))) :
      session_filters (run evs) = Some (list_to_map items) →
      page_call df df1 (df, (items, Omitted)).

(** What a call returns without the cache. *)
Definition uncached (call : DataFrame * cache_key) : DataFrame :=
  filter_dataframe (fst call) (list_to_map (fst (snd call)))
                   (names_of (snd (snd call))).

(** The dataset a kept frame was computed on, when the pages made the
    calls: a dictionary with a rule on the CO2 footprint is that of the
    Bandgap Analysis page, on [df1]; any other is that of the session, on
    [df]. *)
Definition dataset_of (df df1 : DataFrame) (k : cache_key) : DataFrame :=
  match (list_to_map (fst k) : gmap string (cell * cell))
          !! "CO2 footprint max (kg/kg)" with
  | Some _ => df1
  | None => df
  end.

(** Every frame kept is the one the body computes for its key on the
    dataset of its page. *)
Definition cache_sound (df df1 : DataFrame) (c : cache) : Prop :=
  ∀ k frame, (k, frame) ∈ c → frame = uncached (dataset_of df df1 k, k).

(** ** Results, ranked and exported *)

(** A data frame with its index: each row carries the label it was given
    when the spreadsheet was read, and keeps it through the filter. *)
Abbreviation labelled A := (list (nat * A)) (only parsing).

(** A row of the results of [main]: the material, its score (TOPSIS) or
    net flow (PROMETHEE), and its rank. *)
Record result_row : Type := mkResult {
  Material : string;
  Value : R;
  Rank : nat
}.

(** The name of the value column of the results. *)
Inductive value_column : Type :=
  | Score : value_column
  | Net_Flow : value_column.

Record results_frame : Type := mkResults {
  value_name : value_column;
  result_rows : labelled result_row
}.

(** [pd.DataFrame({'Material': filtered_df['Name'], 'Score': scores,
    'Rank': ranks})]: the index is that of the names, the two arrays are
    taken in order and must have the length of the index. *)
Definition build_results (filtered_df : labelled row) (values : list R)
    (ranks : list nat) : option (labelled result_row) :=
  if Nat.eqb (length values) (length filtered_df) &&
     Nat.eqb (length ranks) (length filtered_df)
  then Some (zip_with (λ lr vk, (fst lr, mkResult (Name (snd lr)) (fst vk) (snd vk)))
                      filtered_df (zip values ranks))
  else None.

(** The order of [sort_values('Rank')]. *)
Definition rank_le (a b : nat * result_row) : Prop :=
  (Rank (snd a) ≤ Rank (snd b))%nat.

Global Instance rank_le_dec a b : Decision (rank_le a b).
Proof. unfold rank_le. apply _. Defined.

(** [.sort_values('Rank')], as a merge sort; pandas may order rows of
    equal rank differently. *)
Definition sort_values_rank (rows : labelled result_row) : labelled result_row :=
  merge_sort rank_le rows.

(** The results of [main], for TOPSIS ([Score]) or PROMETHEE
    ([Net_Flow]). *)
Definition main_results (column : value_column) (filtered_df : labelled row)
    (values : list R) (ranks : list nat) : option results_frame :=
  match build_results filtered_df values ranks with
  | Some rows => Some (mkResults column (sort_values_rank rows))
  | None => None
  end.

(** A column of the results as a pandas Series: a map from index label
    to value. *)
Definition series_of {V : Type} (f : result_row → V)
    (rows : labelled result_row) : gmap nat V :=
  list_to_map (map (λ lr, (fst lr, f (snd lr))) rows).

(** The content of the workbook written by [create_full_output]: the
    four sheets, written without their index. *)
Record workbook : Type := mkWorkbook {
  Full_Data_columns : string * string;
  Full_Data : list (row * option R * option nat);
  Rankings_column : value_column;
  Rankings : list result_row;
  Weights : list (string * R * string);
  Filter_Settings : gmap string (cell * cell)
}.

(** [create_full_output(filtered_df, results_df, weights_df)], with
    [st.session_state.filters] as a fourth argument.  The two columns set
    on the copy of [filtered_df] are aligned on the index: a row gets the
    value the results hold under its label, and a missing value when they
    hold none. *)
Definition create_full_output (filtered_df : labelled row)
    (results_df : results_frame) (weights_df : list (string * R * string))
    (filters : gmap string (cell * cell)) : workbook :=
  let values := series_of Value (result_rows results_df) in
  let ranks := series_of Rank (result_rows results_df) in
  mkWorkbook
    (match value_name results_df with
     | Score => ("TOPSIS_Score", "TOPSIS_Rank")
     | Net_Flow => ("PROMETHEE_Net_Flow", "PROMETHEE_Rank")
     end)
    (map (λ lr, (snd lr, values !! fst lr, ranks !! fst lr)) filtered_df)
    (value_name results_df)
    (map snd (result_rows results_df))
    weights_df
    filters.

(** The materials shown under "Top Materials":
    [results.head(min(3, len(results)))]. *)
Definition top_materials (results : results_frame) : list result_row :=
  take (min 3 (length (result_rows results))) (map snd (result_rows results)).

(** A labelled sample: the rows the filter kept, under the labels they
    had in the spreadsheet. *)
Definition sample_filtered : labelled row := [(1, tio2_row); (2, zno_row)]%nat.

(** The runs of a session: the Custom Analysis page applied first, then
    the MCDM page with its bandgap button. *)
Definition sample_runs : list rerun :=
  [CustomAnalysis true (0, 4) (0, 3) (0, 3) (0, 100);
   MCDMAnalysis true (3, 32 # 10) (0, 35 # 10) (0, 3) (0, 100)]%Q.

(** The items of the dictionary the session holds after [sample_runs]. *)
Definition sample_items : list (string * (cell * cell)) :=
  [("Bandgap", rule (3, 32 # 10)); ("ESG Score", rule (0, 35 # 10));
   ("Toxicity", rule (0, 3)); ("Production (ton)", rule (0, 100))]%Q.

(** Three calls: the Bandgap Analysis page on a dataset of zinc oxide
    alone, the MCDM Analysis page after [sample_runs] on the sample
    dataset, and the Bandgap Analysis page again. *)
Definition sample_calls : list (DataFrame * cache_key) :=
  [([zno_row], (bandgap_page_items (0, 35 # 10) (0, 3) (0, 5000),
                Given (Some ["TiO2"; "ZnO"])));
   (sample_df, (sample_items, Omitted));
   ([zno_row], (bandgap_page_items (0, 35 # 10) (0, 3) (0, 5000),
                Given (Some ["TiO2"; "ZnO"])))]%Q.

(** ** Plot data *)

(** The numeric columns of a data frame, by name: one value per row, [None]
    for a missing value. *)
Abbreviation frame := (gmap string (list (option R))) (only parsing).

(** The lower bound [1e-10] of the plots. *)
Definition plot_floor : R := (/ 10 ^ 10)%R.

(** [Series.clip(lower=lower)]: smaller values are raised to [lower],
    missing values stay missing. *)
Definition clip (lower : R) (s : list (option R)) : list (option R) :=
  map (option_map (Rmax lower)) s.

(** [np.log10] on a number and on a series. *)
Definition log10 (x : R) : R := (ln x / ln 10)%R.

Definition np_log10 (s : list (option R)) : list (option R) :=
  map (option_map log10) s.

(** [df_plot[col] = f(df_plot[col])]; [None] is the [KeyError] of a
    column that is not there. *)
Definition update_column (f : list (option R) → list (option R))
    (col : string) (df : frame) : option frame :=
  match df !! col with
  | Some s => Some (<[col := f s]> df)
  | None => None
  end.

(** The pattern of both plot functions: [if log_x: df_plot[x_col] = f(...)]
    and then [if log_y: df_plot[y_col] = f(...)], on a copy of the frame. *)
Definition transform_columns (f : list (option R) → list (option R))
    (df : frame) (x_col y_col : string) (log_x log_y : bool) : option frame :=
  match (if log_x then update_column f x_col df else Some df) with
  | Some df_plot =>
      if log_y then update_column f y_col df_plot else Some df_plot
  | None => None
  end.

(** [prepare_plot_data(df, x_col, y_col, log_x=False, log_y=False)], on
    the numeric columns. *)
Definition prepare_plot_data (df : frame) (x_col y_col : string)
    (log_x log_y : bool) : option frame :=
  transform_columns (λ s, np_log10 (clip plot_floor s)) df x_col y_col
    log_x log_y.

(** The data [create_professional_plot] hands to the plot: the copy of
    the frame with the columns of a logarithmic axis clipped.  The styling
    of the figure and the ten highlighted rows, drawn at random, are left
    out. *)
Definition create_professional_plot_source (df : frame) (x_col y_col : string)
    (log_x log_y : bool) : option frame :=
  transform_columns (clip plot_floor) df x_col y_col log_x log_y.

(** Column [col] is among those put on a logarithmic axis. *)
Definition on_log_axis (col x_col y_col : string) (log_x log_y : bool) : Prop :=
  (col = x_col ∧ log_x = true) ∨ (col = y_col ∧ log_y = true).

(** Every value that is present satisfies [P]. *)
Definition all_present (P : R → Prop) (s : list (option R)) : Prop :=
  Forall (λ v, ∀ r, v = Some r → P r) s.

(** What [np.log10] makes of a clipped value: the logarithm of a value of
    [1e-10] or more, and [-10] below. *)
Definition log_or_floor (x : R) : R :=
  if Rlt_dec x plot_floor then (-10)%R else log10 x.

(** A frame of two columns, with a zero and a missing value. *)
Definition sample_frame : frame :=
  {["Bandgap" := [Some 1; Some 0; None]%R;
    "Toxicity" := [Some 100; Some 10; Some 1]%R]}.

(** The sample frame with both columns on a logarithmic scale. *)
Definition sample_frame_log : frame :=
  <["Toxicity" := map (option_map log_or_floor) [Some 100; Some 10; Some 1]%R]>
    (<["Bandgap" := map (option_map log_or_floor) [Some 1; Some 0; None]%R]>
       sample_frame).

(** The sample frame with the bandgap clipped. *)
Definition sample_frame_clipped : frame :=
  <["Bandgap" := clip plot_floor [Some 1; Some 0; None]%R]> sample_frame.

(** ** The shading of the Bandgap Analysis plot *)

(** A missing value times a number is missing. *)
Definition cell_scale (k : Q) (c : cell) : cell :=
  match c with
  | Num q => Num (q * k)
  | NaN => NaN
  end.

(** The vertical extent of the three shaded regions, from the column
    plotted on the y axis: [(y.min() * 0.9, y.max() * 1.1)]. *)
Definition shading_extent (y : list cell) : cell * cell :=
  (cell_scale (9 # 10) (series_min y), cell_scale (11 # 10) (series_max y)).

(** * Proofs *)

(** ** Lemmas on the filter *)

Lemma series_min_le (s : list cell) (q : Q) :
  Num q ∈ s → ∃ m, series_min s = Num m ∧ (m <= q)%Q.
Proof.
  induction s as [|c s IH]; intros Hin.
  - inversion Hin.
  - apply elem_of_cons in Hin as [<-|Hin]; simpl.
    + destruct (series_min s) as [|m]; simpl.
      * exists q. split; [reflexivity|apply Qle_refl].
      * destruct (Qle_bool q m) eqn:E.
        -- exists q. split; [reflexivity|apply Qle_refl].
        -- exists m. split; [reflexivity|].
           destruct (Qlt_le_dec m q) as [Hlt|Hle]; [apply Qlt_le_weak, Hlt|].
           apply Qle_bool_iff in Hle. congruence.
    + destruct (IH Hin) as (m & -> & Hm).
      destruct c as [|x]; simpl; [eauto|].
      destruct (Qle_bool x m) eqn:E; [|eauto].
      exists x. split; [reflexivity|].
      apply Qle_bool_iff in E. eapply Qle_trans; eassumption.
Qed.

Lemma series_max_ge (s : list cell) (q : Q) :
  Num q ∈ s → ∃ m, series_max s = Num m ∧ (q <= m)%Q.
Proof.
  induction s as [|c s IH]; intros Hin.
  - inversion Hin.
  - apply elem_of_cons in Hin as [<-|Hin]; simpl.
    + destruct (series_max s) as [|m]; simpl.
      * exists q. split; [reflexivity|apply Qle_refl].
      * destruct (Qle_bool q m) eqn:E.
        -- exists m. split; [reflexivity|]. apply Qle_bool_iff, E.
        -- exists q. split; [reflexivity|apply Qle_refl].
    + destruct (IH Hin) as (m & -> & Hm).
      destruct c as [|x]; simpl; [eauto|].
      destruct (Qle_bool x m) eqn:E; [eauto|].
      exists x. split; [reflexivity|].
      destruct (Qlt_le_dec m x) as [Hlt|Hle].
      * eapply Qle_trans; [eassumption|apply Qlt_le_weak, Hlt].
      * apply Qle_bool_iff in Hle. congruence.
Qed.

(** On a row of the frame, the mask of one column says [in_range]. *)
Lemma between_range_of (filters : gmap string (cell * cell)) key f
    (df : DataFrame) (r : row) :
  r ∈ df →
  between (f r) (range_of filters key f df) = true ↔
  in_range (f r) (filters !! key).
Proof.
  intros Hin. unfold range_of, between, cell_geb.
  destruct (filters !! key) as [[lo hi]|]; simpl.
  - destruct (f r) as [|q], lo as [|l], hi as [|h]; simpl;
      rewrite ?andb_true_iff, ?Qle_bool_iff; intuition congruence.
  - destruct (f r) as [|q] eqn:Efr; simpl.
    + destruct (series_min (column f df)); simpl; intuition congruence.
    + assert (Hq : Num q ∈ column f df).
      { rewrite <- Efr. unfold column. apply list_elem_of_fmap. eauto. }
      destruct (series_min_le _ _ Hq) as (lo & -> & Hlo).
      destruct (series_max_ge _ _ Hq) as (hi & -> & Hhi).
      simpl. rewrite andb_true_iff, !Qle_bool_iff. tauto.
Qed.

Lemma filter_bool_decide {A} (b : A → bool) (P : A → Prop)
    `{∀ x, Decision (P x)} (l : list A) :
  (∀ x, x ∈ l → b x = true ↔ P x) → List.filter b l = filter P l.
Proof.
  induction l as [|a l IH]; intros Hb; [reflexivity|].
  simpl. rewrite filter_cons.
  assert (Ha : b a = true ↔ P a) by (apply Hb; left).
  rewrite IH by (intros x Hx; apply Hb; right; exact Hx).
  destruct (decide (P a)) as [HP|HP], (b a) eqn:E; try reflexivity.
  - apply Ha in HP. congruence.
  - exfalso. apply HP, Ha. reflexivity.
Qed.

Lemma isin_elem_of (n : string) (values : list string) :
  isin n values = true ↔ n ∈ values.
Proof.
  unfold isin. rewrite existsb_exists. split.
  - intros (x & Hx & Heq). apply String.eqb_eq in Heq. subst.
    apply list_elem_of_In, Hx.
  - intros Hin. exists n. split; [apply list_elem_of_In, Hin|apply String.eqb_refl].
Qed.

(** The filter, as a comprehension over the frame. *)
Lemma filter_dataframe_filter (df : DataFrame)
    (filters : gmap string (cell * cell)) (names : option (list string)) :
  filter_dataframe df filters names = filter (admitted filters names) df.
Proof.
  unfold filter_dataframe.
  rewrite (filter_bool_decide _ (admitted filters None)).
  - destruct names as [ns|].
    + rewrite (filter_bool_decide _ (λ r, name_allowed (Name r) (Some ns)))
        by (intros; apply isin_elem_of).
      rewrite list_filter_filter. apply list_filter_iff.
      intros r. unfold admitted. simpl. tauto.
    + reflexivity.
  - intros r Hr. unfold admitted. simpl.
    rewrite !andb_true_iff, !between_range_of by exact Hr. tauto.
Qed.

Lemma admitted_no_missing filters names (r : row) :
  admitted filters names r → no_missing r.
Proof.
  unfold admitted, no_missing, present.
  intros (H1 & H2 & H3 & H4 & _).
  repeat split; intros E; rewrite E in *; assumption.
Qed.

Lemma between_in_range (x : cell) (range : cell * cell) :
  between x range = true ↔ in_range x (Some range).
Proof.
  destruct range as [lo hi]. unfold between, cell_geb.
  destruct x as [|q], lo as [|l], hi as [|h]; simpl;
    rewrite ?andb_true_iff, ?Qle_bool_iff; intuition congruence.
Qed.

Lemma in_range_of_rules (filters : gmap string (cell * cell))
    (key : string) (x : cell) :
  present x → (∀ range, filters !! key = Some range → between x range = true) →
  in_range x (filters !! key).
Proof.
  intros Hx Hrule. destruct (filters !! key) as [range|].
  - apply between_in_range, Hrule. reflexivity.
  - destruct x; [contradiction|exact I].
Qed.

(** With rules on the four criteria only, the rows kept are the rows
    without a missing value that satisfy every rule. *)
Lemma admitted_satisfies_rules (filters : gmap string (cell * cell))
    (names : option (list string)) (r : row) :
  (∀ key, is_Some (filters !! key) → key ∈ filter_keys) →
  admitted filters names r ↔ no_missing r ∧ satisfies_rules filters names r.
Proof.
  intros Hkeys. split.
  - intros Hadm. split; [eapply admitted_no_missing, Hadm|].
    destruct Hadm as (H1 & H2 & H3 & H4 & Hn). split; [|exact Hn].
    intros key range x Hrule Hcol.
    assert (Hkey : key ∈ filter_keys) by (apply Hkeys; eauto).
    unfold filter_keys in Hkey.
    rewrite !elem_of_cons, elem_of_nil in Hkey.
    destruct Hkey as [-> | [-> | [-> | [-> | []]]]];
      injection Hcol as <-; apply between_in_range;
      rewrite <- Hrule; assumption.
  - intros [(P1 & P2 & P3 & P4) [Hrules Hn]].
    repeat split; try exact Hn;
      (apply in_range_of_rules; [assumption|]);
      intros range Hrule; (eapply Hrules; [exact Hrule|reflexivity]).
Qed.

(** A rule under a key that is not one of the four criteria changes
    nothing. *)
Lemma filter_dataframe_other_key (df : DataFrame)
    (filters : gmap string (cell * cell)) (names : option (list string))
    (key : string) (range : cell * cell) :
  key ∉ filter_keys →
  filter_dataframe df (<[key := range]> filters) names =
  filter_dataframe df filters names.
Proof.
  intros Hkey. rewrite !filter_dataframe_filter. apply list_filter_iff.
  intros r. unfold admitted.
  rewrite !lookup_insert_ne; [reflexivity|..];
    intros ->; apply Hkey; unfold filter_keys; set_solver.
Qed.

(** The bandgap rule is a rule on one of the four criteria. *)
Lemma bandgap_rule_keys (key : string) :
  is_Some (bandgap_rule !! key) → key ∈ filter_keys.
Proof.
  unfold bandgap_rule. intros [range Hrange].
  apply lookup_singleton_Some in Hrange as [<- _]. left.
Qed.

(** ** Theorems on the filter *)

(** The filter runs: the bandgap rule keeps TiO2 alone, and without a rule
    the silicon row, whose ESG score is missing, is dropped. *)
Example filter_dataframe_sample :
  filter_dataframe sample_df bandgap_rule None = [tio2_row].
Proof. vm_compute. reflexivity. Qed.

Example filter_dataframe_sample_names :
  filter_dataframe sample_df ∅ (Some ["ZnO"; "Si"]) = [zno_row].
Proof. vm_compute. reflexivity. Qed.

(** C1 (as amended).  With rules on Bandgap, ESG Score, Toxicity and CO2
    footprint max only, the filter returns, in the order of the dataset,
    exactly the rows that have a value in each of these four columns,
    satisfy every supplied range (bounds included) and bear a name of the
    name list when one is given; the result is empty, and no error, when
    no row qualifies. *)
Theorem filter_dataframe_exactly (df : DataFrame)
    (filters : gmap string (cell * cell)) (names : option (list string)) :
  (∀ key, is_Some (filters !! key) → key ∈ filter_keys) →
  filter_dataframe df filters names = filter (admitted filters names) df ∧
  (∀ r, admitted filters names r ↔
        no_missing r ∧ satisfies_rules filters names r) ∧
  (∀ r, r ∈ filter_dataframe df filters names ↔
        r ∈ df ∧ no_missing r ∧ satisfies_rules filters names r) ∧
  (filter_dataframe df filters names = [] ↔
   Forall (λ r, ¬ (no_missing r ∧ satisfies_rules filters names r)) df).
Proof.
  intros Hkeys.
  pose proof (admitted_satisfies_rules filters names) as Hadm.
  rewrite filter_dataframe_filter.
  split; [reflexivity|]. split; [intros r; apply Hadm, Hkeys|]. split.
  - intros r. rewrite list_elem_of_filter, (Hadm r Hkeys). tauto.
  - rewrite Forall_forall. split.
    + intros Hnil r Hr Hq.
      assert (Hin : r ∈ filter (admitted filters names) df)
        by (apply list_elem_of_filter; split; [apply Hadm; assumption|exact Hr]).
      rewrite Hnil in Hin. inversion Hin.
    + intros Hnone. destruct (filter _ df) as [|r l] eqn:E; [reflexivity|].
      assert (Hin : r ∈ filter (admitted filters names) df)
        by (rewrite E; left).
      apply list_elem_of_filter in Hin as [Hq Hr].
      exfalso. apply (Hnone r Hr). apply Hadm; assumption.
Qed.

(** The theorem on the sample dataset, with the rule on the bandgap. *)
Lemma filter_dataframe_exactly_sample :
  (∀ key, is_Some (bandgap_rule !! key) → key ∈ filter_keys) ∧
  filter_dataframe sample_df bandgap_rule None =
    filter (admitted bandgap_rule None) sample_df ∧
  (tio2_row ∈ filter_dataframe sample_df bandgap_rule None ↔
   tio2_row ∈ sample_df ∧ no_missing tio2_row ∧
   satisfies_rules bandgap_rule None tio2_row).
Proof.
  pose proof (filter_dataframe_exactly sample_df bandgap_rule None
                bandgap_rule_keys) as (Heq & _ & Hmem & _).
  split; [exact bandgap_rule_keys|]. split; [exact Heq|exact (Hmem tio2_row)].
Defined.

(** C1 (as stated) fails: with no rule at all, a row whose ESG score is
    missing satisfies every supplied range, and the filter drops it. *)
Lemma filter_dataframe_drops_unconstrained_row :
  ¬ (si_row ∈ filter_dataframe [si_row] ∅ None ↔
     si_row ∈ [si_row] ∧ satisfies_rules ∅ None si_row).
Proof.
  intros [_ Hback].
  assert (Hin : si_row ∈ filter_dataframe [si_row] ∅ None).
  { apply Hback. split; [left|]. split; [|exact I].
    intros key range x Hk. rewrite lookup_empty in Hk. discriminate. }
  vm_compute in Hin. inversion Hin.
Qed.

(** C8.  Filtering the output of the filter again, with the same rules
    and the same names, returns that output unchanged. *)
Theorem filter_dataframe_idempotent (df : DataFrame)
    (filters : gmap string (cell * cell)) (names : option (list string)) :
  filter_dataframe (filter_dataframe df filters names) filters names =
  filter_dataframe df filters names.
Proof.
  rewrite !filter_dataframe_filter, list_filter_filter.
  apply list_filter_iff. tauto.
Qed.

(** C10.  Every row the filter returns has a value in each of Bandgap,
    ESG Score, Toxicity and CO2 footprint max, whatever the rules: a row
    with a missing value in one of them is never returned. *)
Theorem filter_dataframe_no_missing (df : DataFrame)
    (filters : gmap string (cell * cell)) (names : option (list string)) :
  Forall no_missing (filter_dataframe df filters names).
Proof.
  rewrite filter_dataframe_filter. apply Forall_forall.
  intros r Hr. apply list_elem_of_filter in Hr as [Hadm _].
  eapply admitted_no_missing, Hadm.
Qed.

(** ** Sums of reals *)

Local Open Scope R_scope.

Lemma Rsum_map_div {A} (f : A → R) (d : R) (l : list A) :
  Rsum (map (λ x, f x / d)%R l) = (Rsum (map f l) / d)%R.
Proof.
  induction l as [|a l IH]; simpl.
  - unfold Rdiv. rewrite Rmult_0_l. reflexivity.
  - rewrite IH. unfold Rdiv. ring.
Qed.

Lemma Rsum_repeat (x : R) (n : nat) : Rsum (repeat x n) = (INR n * x)%R.
Proof.
  induction n as [|n IH].
  - simpl. ring.
  - rewrite S_INR. cbn [repeat Rsum foldr]. fold (Rsum (repeat x n)).
    rewrite IH. ring.
Qed.

Lemma Rsum_IZR (l : list Z) : Rsum (map IZR l) = IZR (Zsum l).
Proof.
  induction l as [|a l IH]; simpl; [reflexivity|].
  rewrite IH, plus_IZR. reflexivity.
Qed.

Lemma Rsum_map_plus {A} (f g : A → R) (l : list A) :
  Rsum (map (λ x, f x + g x)%R l) = (Rsum (map f l) + Rsum (map g l))%R.
Proof. induction l as [|a l IH]; simpl; [ring|rewrite IH; ring]. Qed.

Lemma Rsum_map_scale {A} (k : R) (f : A → R) (l : list A) :
  Rsum (map (λ x, k * f x)%R l) = (k * Rsum (map f l))%R.
Proof. induction l as [|a l IH]; simpl; [ring|rewrite IH; ring]. Qed.

Lemma Rsum_map_zero {A} (l : list A) : Rsum (map (λ _, 0%R) l) = 0%R.
Proof. induction l as [|a l IH]; simpl; [reflexivity|rewrite IH; ring]. Qed.

Lemma Rsum_map_ext {A} (f g : A → R) (l : list A) :
  (∀ x, x ∈ l → f x = g x) → Rsum (map f l) = Rsum (map g l).
Proof.
  induction l as [|a l IH]; intros H; simpl; [reflexivity|].
  rewrite (H a) by left. rewrite IH; [reflexivity|].
  intros x Hx. apply H. right. exact Hx.
Qed.

Lemma Rsum_map_opp {A} (f : A → R) (l : list A) :
  Rsum (map (λ x, - f x) l) = - Rsum (map f l).
Proof. induction l as [|a l IH]; simpl; [ring|rewrite IH; ring]. Qed.

Lemma Rsum_map_const {A} (k : R) (l : list A) :
  Rsum (map (λ _, k) l) = INR (length l) * k.
Proof.
  induction l as [|a l IH]; [simpl; ring|].
  cbn [map length Rsum foldr]. fold (Rsum (map (λ _, k) l)). rewrite IH, S_INR. ring.
Qed.

Lemma Rsum_map_le {A} (f g : A → R) (l : list A) :
  (∀ x, x ∈ l → f x <= g x) → Rsum (map f l) <= Rsum (map g l).
Proof.
  induction l as [|a l IH]; intros H; simpl; [lra|].
  pose proof (H a ltac:(left)). 
  assert (Rsum (map f l) <= Rsum (map g l)) by (apply IH; intros; apply H; right; done).
  lra.
Qed.

Lemma Rsum_nonneg (l : list R) : Forall (λ x, 0 <= x) l → 0 <= Rsum l.
Proof. induction 1; simpl; lra. Qed.

(** The two orders of a double sum. *)
Lemma Rsum_swap {A B} (f : A → B → R) (la : list A) (lb : list B) :
  Rsum (map (λ a, Rsum (map (λ b, f a b) lb)) la) =
  Rsum (map (λ b, Rsum (map (λ a, f a b) la)) lb).
Proof.
  induction la as [|a la IH]; simpl.
  - rewrite Rsum_map_zero. reflexivity.
  - rewrite IH. rewrite (Rsum_map_plus (f a)). reflexivity.
Qed.

Lemma Rinv_nonneg (x : R) : (0 <= x → 0 <= / x)%R.
Proof.
  intros [Hpos|<-].
  - apply Rlt_le, Rinv_0_lt_compat, Hpos.
  - rewrite Rinv_0. apply Rle_refl.
Qed.

Lemma Forall_entry_nonneg (weights : list R) (c : nat) :
  Forall (λ x, 0 <= x)%R weights → (0 <= entry weights c)%R.
Proof.
  intros Hw. unfold entry.
  destruct (nth_in_or_default c weights 0%R) as [Hin| ->]; [|apply Rle_refl].
  rewrite Forall_forall in Hw. apply Hw, list_elem_of_In, Hin.
Qed.

(** ** Lemmas on the weights *)

Lemma Zsum_nonneg (l : list Z) : Forall (λ z, 0 ≤ z)%Z l → (0 ≤ Zsum l)%Z.
Proof. induction 1; simpl; lia. Qed.

Lemma Zsum_zero_iff (l : list Z) :
  Forall (λ z, 0 ≤ z)%Z l → Zsum l = 0%Z ↔ Forall (λ z, z = 0%Z) l.
Proof.
  induction 1 as [|z l Hz Hl IH]; simpl.
  - split; [constructor|reflexivity].
  - pose proof (Zsum_nonneg _ Hl). rewrite Forall_cons. split.
    + intros E. split; [lia|]. apply IH. lia.
    + intros [-> Hall]. apply IH in Hall. lia.
Qed.

(** The contract of the manual weights. *)
Lemma manual_weights_contract (weights : list Z) :
  weights ≠ [] → Forall (λ z, 0 ≤ z)%Z weights →
  weight_contract (length weights) (manual_weights weights).
Proof.
  intros Hne Hpos. unfold manual_weights, weight_contract.
  assert (Hlen : (0 < INR (length weights))%R).
  { apply lt_0_INR. destruct weights; [congruence|simpl; lia]. }
  pose proof (Zsum_nonneg _ Hpos) as Hsum.
  destruct (Z.eqb_spec (Zsum weights) 0) as [E|E].
  - rewrite length_map, repeat_length. split; [reflexivity|]. split.
    + apply Forall_forall. intros x Hx. apply list_elem_of_fmap in Hx as (y & -> & Hy).
      apply list_elem_of_In, repeat_spec in Hy. subst y.
      apply Rlt_le, Rdiv_lt_0_compat; lra.
    + rewrite (Rsum_map_div (λ x, x)), map_id, Rsum_repeat. field. lra.
  - assert (HS : (0 < IZR (Zsum weights))%R) by (apply IZR_lt; lia).
    rewrite length_map. split; [reflexivity|]. split.
    + apply Forall_forall. intros x Hx. apply list_elem_of_fmap in Hx as (z & -> & Hz).
      rewrite Forall_forall in Hpos. apply Hpos in Hz. apply IZR_le in Hz.
      apply Rmult_le_pos; [exact Hz|]. apply Rlt_le, Rinv_0_lt_compat, HS.
    + rewrite (Rsum_map_div IZR), Rsum_IZR. field. lra.
Qed.

Lemma ln_le_pred (y : R) : 0 < y → ln y <= y - 1.
Proof.
  intros Hy. pose proof (exp_ineq1_le (ln y)) as H.
  rewrite exp_ln in H by exact Hy. lra.
Qed.

(** One term of the entropy, from [ln y <= y - 1] at [y = 1 / (M p)]. *)
Lemma plogp_bound (p M : R) :
  0 <= p → 0 < M → - plogp p <= p * ln M - p + / M.
Proof.
  intros [Hp| <-] HM; unfold plogp.
  - assert (Hy : 0 < / (M * p)) by (apply Rinv_0_lt_compat, Rmult_lt_0_compat; lra).
    pose proof (ln_le_pred _ Hy) as H.
    rewrite ln_Rinv, ln_mult in H by (try apply Rmult_lt_0_compat; lra).
    apply (Rmult_le_compat_l p) in H; [|lra].
    replace (p * (/ (M * p) - 1)) with (/ M - p) in H by (field; lra).
    lra.
  - rewrite !Rmult_0_l. pose proof (Rinv_0_lt_compat _ HM). lra.
Qed.

(** The entropy of a column of non-negative values is at most 1: the
    Shannon entropy of [m] probabilities is at most [ln m]. *)
Lemma column_entropy_le_1 (c : list R) :
  (2 ≤ length c)%nat → Forall (λ x, 0 <= x) c → column_entropy c <= 1.
Proof.
  intros Hlen Hpos. unfold column_entropy.
  destruct (Req_dec_T (Rsum c) 0) as [E|E]; [lra|].
  pose proof (Rsum_nonneg _ Hpos) as HS.
  assert (HS' : 0 < Rsum c) by lra.
  set (S := Rsum c) in *. set (M := INR (length c)).
  assert (HM : 2 <= M) by (unfold M; change 2 with (INR 2); apply le_INR, Hlen).
  assert (HlnM : 0 < ln M) by (rewrite <- ln_1; apply ln_increasing; lra).
  assert (Hb : - Rsum (map (λ x, plogp (x / S)) c) <= ln M).
  { rewrite <- (Rsum_map_opp (λ x, plogp (x / S))).
    eapply Rle_trans.
    - apply (Rsum_map_le _ (λ x, (x / S) * (ln M - 1) + / M)).
      intros x Hx. rewrite Forall_forall in Hpos.
      pose proof (plogp_bound (x / S) M) as H.
      assert (0 <= x / S).
      { apply Rmult_le_pos; [apply Hpos, Hx|]. apply Rlt_le, Rinv_0_lt_compat, HS'. }
      specialize (H ltac:(assumption) ltac:(lra)). lra.
    - rewrite Rsum_map_plus, Rsum_map_const. fold M.
      rewrite (Rsum_map_ext _ (λ x, (/ S * (ln M - 1)) * x)) by (intros; unfold Rdiv; ring).
      rewrite Rsum_map_scale, map_id. fold S.
      replace (/ S * (ln M - 1) * S + M * / M) with (ln M) by (field; lra). lra. }
  apply (Rmult_le_reg_r (ln M)); [exact HlnM|].
  replace (- Rsum (map (λ x, plogp (x / S)) c) / ln M * ln M)
    with (- Rsum (map (λ x, plogp (x / S)) c)) by (field; lra).
  lra.
Qed.

Lemma col_nonneg (m : matrix) (c : nat) :
  Forall (Forall (λ x, 0 <= x)) m → Forall (λ x, 0 <= x) (col c m).
Proof.
  intros Hm. unfold col. apply Forall_fmap. eapply Forall_impl; [exact Hm|].
  intros r Hr. simpl. apply Forall_entry_nonneg, Hr.
Qed.

Lemma diversification_nonneg (m : matrix) :
  (2 ≤ length m)%nat → Forall (Forall (λ x, 0 <= x)) m →
  Forall (λ d, 0 <= d) (diversification m).
Proof.
  intros Hlen Hm. unfold diversification. apply Forall_fmap, Forall_forall.
  intros c _. simpl.
  pose proof (column_entropy_le_1 (col c m)) as H.
  unfold col in H at 1. rewrite length_map in H.
  specialize (H Hlen (col_nonneg m c Hm)). lra.
Qed.

(** The contract of the entropy weights. *)
Lemma entropy_weights_contract (m : matrix) :
  (2 ≤ length m)%nat → Forall (Forall (λ x, 0 <= x)) m →
  Rsum (diversification m) ≠ 0 →
  weight_contract (criteria_count m) (entropy_weights m).
Proof.
  intros Hlen Hm Hsum. unfold weight_contract, entropy_weights.
  pose proof (diversification_nonneg m Hlen Hm) as Hd.
  pose proof (Rsum_nonneg _ Hd) as HS.
  split; [|split].
  - rewrite length_map. unfold diversification. rewrite length_map, length_seq. reflexivity.
  - apply Forall_fmap. eapply Forall_impl; [exact Hd|].
    intros d H0. simpl. apply Rmult_le_pos; [exact H0|]. apply Rinv_nonneg, HS.
  - rewrite (Rsum_map_div (λ d, d)), map_id. field. exact Hsum.
Qed.

Lemma column_entropy_one_zero : column_entropy [1; 0] = 0.
Proof.
  unfold column_entropy. simpl.
  destruct (Req_dec_T (1 + (0 + 0)) 0) as [E|_]; [lra|].
  unfold plogp. replace (1 / (1 + (0 + 0))) with 1 by (field; lra).
  replace (0 / (1 + (0 + 0))) with 0 by (field; lra).
  rewrite ln_1. unfold Rdiv. ring.
Qed.

(** ** Theorems on the weights *)

(** C9.  Whatever the matrix, a method other than "entropy" ("manual"
    included) makes [calculate_weights] return [None]: no weight vector,
    no error. *)
Theorem calculate_weights_other_method {W : Type} (ew : matrix → W)
    (m : matrix) (method : string) :
  method ≠ "entropy" → calculate_weights ew m method = None.
Proof.
  intros Hne. unfold calculate_weights.
  destruct (String.eqb_spec method "entropy") as [E|E]; [contradiction|reflexivity].
Qed.

(** The theorem on the method "manual". *)
Lemma calculate_weights_manual_is_none :
  "manual" ≠ "entropy" ∧
  calculate_weights entropy_weights [[1; 2]; [3; 4]]%R "manual" = None.
Proof.
  split; [discriminate|].
  apply calculate_weights_other_method. discriminate.
Defined.

(** C4 (as amended).  The weight vector of [main] has one entry per
    criterion, no negative entry and sum 1: always for the manual weights
    of one criterion or more, and for the entropy weights when the matrix
    has two rows or more, no negative entry and diversification degrees
    that do not all vanish.  Manual scores that are all zero give the
    uniform vector, other scores are each divided by their sum. *)
Theorem assign_weights_contract (mcdm_method weighting_method : string)
    (m : matrix) (sliders : list Z) (n : nat) :
  weights_ready mcdm_method weighting_method m sliders n →
  weight_contract n (assign_weights mcdm_method weighting_method m sliders) ∧
  (Forall (λ z, 0 ≤ z)%Z sliders →
   manual_weights sliders =
     if bool_decide (Forall (λ z, z = 0%Z) sliders)
     then repeat (1 / INR (length sliders)) (length sliders)
     else map (λ s, IZR s / IZR (Zsum sliders)) sliders).
Proof.
  unfold weights_ready, assign_weights. intros Hready. split.
  - destruct (_ && _).
    + destruct Hready as (<- & Hlen & Hm & Hsum).
      apply entropy_weights_contract; assumption.
    + destruct Hready as (<- & Hn & Hpos).
      apply manual_weights_contract; [|exact Hpos].
      intros ->. simpl in Hn. lia.
  - intros Hpos. unfold manual_weights.
    pose proof (Zsum_zero_iff _ Hpos) as Hz.
    destruct (Z.eqb_spec (Zsum sliders) 0) as [E|E].
    + rewrite bool_decide_eq_true_2 by (apply Hz, E).
      generalize (INR (length sliders)). intros x.
      generalize (length sliders). intros k.
      induction k as [|k IH]; simpl; [reflexivity|]. rewrite IH. reflexivity.
    + rewrite bool_decide_eq_false_2 by (intros H; apply E, Hz, H). reflexivity.
Qed.

(** The theorem on three slider values, and on the entropy weights of a
    column of two different values. *)
Lemma assign_weights_two_inputs :
  (weights_ready "PROMETHEE" "" [] [3; 0; 2]%Z 3 ∧
   weight_contract 3 (assign_weights "PROMETHEE" "" [] [3; 0; 2]%Z)) ∧
  (weights_ready "TOPSIS" "Entropy Weighting" [[1]; [0]] [] 1 ∧
   weight_contract 1 (assign_weights "TOPSIS" "Entropy Weighting" [[1]; [0]] [])).
Proof.
  assert (H1 : weights_ready "PROMETHEE" "" [] [3; 0; 2]%Z 3).
  { split; [reflexivity|]. split; [lia|]. repeat constructor; lia. }
  assert (H2 : weights_ready "TOPSIS" "Entropy Weighting" [[1]; [0]] [] 1).
  { split; [reflexivity|]. split; [simpl; lia|]. split.
    - repeat constructor; lra.
    - unfold diversification, col, entry. simpl.
      rewrite column_entropy_one_zero. lra. }
  split; (split; [assumption|]).
  - exact (proj1 (assign_weights_contract "PROMETHEE" "" [] [3; 0; 2]%Z 3 H1)).
  - exact (proj1 (assign_weights_contract "TOPSIS" "Entropy Weighting"
                    [[1]; [0]] [] 1 H2)).
Defined.

(** C4 (as stated) fails: on a column of two equal values the entropy is
    1, the only diversification degree is 0 and the entropy weights sum
    to 0. *)
Lemma entropy_weights_constant_column :
  ¬ weight_contract 1
      (assign_weights "TOPSIS" "Entropy Weighting" [[1]; [1]] [3%Z]).
Proof.
  intros (_ & _ & Hsum). revert Hsum.
  unfold assign_weights. simpl. unfold entropy_weights, diversification. simpl.
  unfold col, entry. simpl. intros H.
  assert (Hd : column_entropy [1; 1] = 1).
  { unfold column_entropy. simpl.
    destruct (Req_dec_T (1 + (1 + 0)) 0) as [E|_]; [lra|].
    unfold plogp. replace (1 / (1 + (1 + 0))) with (/ 2) by lra.
    rewrite ln_Rinv by lra.
    assert (0 < ln 2) by (rewrite <- ln_1; apply ln_increasing; lra).
    replace (1 + 1) with 2 by lra. field. lra. }
  rewrite Hd in H. unfold Rdiv in H. lra.
Qed.

(** ** Theorems on PROMETHEE II *)

(** Leaving and entering flows add up to the same double sum. *)
Lemma net_flows_sum (preference : R → R) (m : matrix) (weights : list R)
    (directions : list direction) :
  Rsum (net_flows preference m weights directions) = 0%R.
Proof.
  unfold net_flows, leaving_flow, entering_flow.
  set (k := (1 / (INR (length m) - 1))%R).
  set (p := aggregated_preference preference weights directions).
  rewrite (Rsum_map_ext _ (λ r_i, k * Rsum (map (λ r_j, p r_i r_j) m) +
                                  (- k) * Rsum (map (λ r_j, p r_j r_i) m))%R)
    by (intros; ring).
  rewrite Rsum_map_plus, !Rsum_map_scale.
  rewrite (Rsum_swap p). ring.
Qed.

(** PROMETHEE II answers on every rectangular matrix of two rows or more. *)
Lemma run_promethee_answers (m : matrix) (weights : list R)
    (criteria_types : list direction) :
  (2 ≤ length m)%nat → rectangular m weights criteria_types = true →
  run_promethee m weights criteria_types =
    Ok (net_flows usual m weights criteria_types).
Proof.
  intros Hn Hrect. unfold run_promethee, PROMETHEE_II. rewrite Hrect.
  destruct (Nat.ltb_spec (length m) 2); [lia|reflexivity].
Qed.



(** On two rows or more the engine without the test on the number of
    rows returns what [run_promethee] returns, every flow a number. *)
Lemma run_promethee_unguarded_agrees (m : matrix) (weights : list R)
    (criteria_types : list direction) :
  (2 ≤ length m)%nat →
  run_promethee_unguarded m weights criteria_types =
    match run_promethee m weights criteria_types with
    | Ok flows => Ok (map Some flows)
    | Err e => Err e
    end.
Proof.
  intros Hn. unfold run_promethee_unguarded, PROMETHEE_II_unguarded,
    run_promethee, PROMETHEE_II.
  destruct (Nat.ltb_spec (length m) 2) as [Hlt|_]; [lia|].
  destruct (rectangular m weights criteria_types); [|reflexivity].
  f_equal. unfold net_flows_unguarded, net_flows. rewrite map_map.
  apply map_ext. intros r_i.
  unfold leaving_flow_unguarded, entering_flow_unguarded, leaving_flow,
    entering_flow, quotient.
  destruct (Req_dec_T (INR (length m) - 1) 0) as [Hz|_]; [|reflexivity].
  exfalso. apply le_INR in Hn. simpl in Hn. lra.
Qed.

(** So on two rows or more its flows are numbers that sum to zero. *)
Lemma run_promethee_unguarded_sum_zero (m : matrix) (weights : list R)
    (criteria_types : list direction) (flows : list (option R)) :
  (2 ≤ length m)%nat →
  run_promethee_unguarded m weights criteria_types = Ok flows →
  ∃ numbers : list R, flows = map Some numbers ∧ Rsum numbers = 0%R.
Proof.
  intros Hn. rewrite (run_promethee_unguarded_agrees m weights criteria_types Hn).
  unfold run_promethee, PROMETHEE_II.
  destruct (length m <? 2)%nat; [discriminate|].
  destruct (rectangular m weights criteria_types); [|discriminate].
  intros [= <-]. eexists. split; [reflexivity|apply net_flows_sum].
Qed.





(** ** Theorems on the ranks *)

Lemma Rltb_true (x y : R) : Rltb x y = true ↔ (x < y)%R.
Proof. unfold Rltb. destruct (Rlt_dec x y); intuition congruence. Qed.

Lemma filter_length_mono {A} (p q : A → bool) (l : list A) :
  (∀ x, p x = true → q x = true) →
  (length (List.filter p l) ≤ length (List.filter q l))%nat.
Proof.
  intros Hpq. induction l as [|a l IH]; simpl; [lia|].
  destruct (p a) eqn:Ep.
  - rewrite (Hpq a Ep). simpl. lia.
  - destruct (q a); simpl; lia.
Qed.

Lemma ranks_of_lookup (scores : list R) (i : nat) (s : R) :
  scores !! i = Some s →
  ranks_of scores !! i =
    Some (S (length (List.filter (λ t, Rltb s t) scores))).
Proof.
  intros Hs. unfold ranks_of, rankdata.
  rewrite list_lookup_fmap, Hs. reflexivity.
Qed.

(** C5.  The rank never goes up with the score: a row with a higher
    score has a rank at most that of a row with a lower score, and rows
    with equal scores have equal ranks. *)
Theorem ranks_of_monotone (scores : list R) (i j : nat) (s_i s_j : R)
    (rank_i rank_j : nat) :
  scores !! i = Some s_i → scores !! j = Some s_j →
  ranks_of scores !! i = Some rank_i → ranks_of scores !! j = Some rank_j →
  ((s_i > s_j)%R → (rank_i ≤ rank_j)%nat) ∧ (s_i = s_j → rank_i = rank_j).
Proof.
  intros Hi Hj Hri Hrj.
  rewrite (ranks_of_lookup _ _ _ Hi) in Hri.
  rewrite (ranks_of_lookup _ _ _ Hj) in Hrj.
  injection Hri as <-. injection Hrj as <-. split.
  - intros Hgt. apply le_n_S, filter_length_mono.
    intros t Ht. apply Rltb_true in Ht. apply Rltb_true. lra.
  - intros ->. reflexivity.
Qed.

(** The theorem on the scores 1 and 0. *)
Lemma ranks_of_two_scores :
  ∃ rank_0 rank_1 : nat,
    ranks_of [1; 0]%R !! 0%nat = Some rank_0 ∧
    ranks_of [1; 0]%R !! 1%nat = Some rank_1 ∧
    ((1 > 0)%R → (rank_0 ≤ rank_1)%nat) ∧ (1%R = 0%R → rank_0 = rank_1).
Proof.
  eexists _, _. split; [reflexivity|]. split; [reflexivity|].
  apply (ranks_of_monotone [1; 0]%R 0 1 1%R 0%R); reflexivity.
Defined.

(** ** Lemmas on TOPSIS *)

Lemma entry_map_seq (g : nat → R) (n c : nat) :
  (c < n)%nat → entry (map g (seq 0 n)) c = g c.
Proof.
  intros Hc. unfold entry.
  rewrite (nth_indep _ 0%R (g 0%nat)) by (rewrite length_map, length_seq; exact Hc).
  rewrite map_nth, seq_nth by exact Hc. reflexivity.
Qed.

Lemma entry_imap {A} (g : nat → A → R) (l : list A) (c : nat) (a : A) :
  l !! c = Some a → entry (imap g l) c = g c a.
Proof.
  intros Hl. unfold entry. apply nth_lookup_Some with (d := 0%R).
  rewrite list_lookup_imap, Hl. reflexivity.
Qed.

Lemma col_weighted_matrix (m : matrix) (weights : list R) (c : nat) :
  (c < length weights)%nat →
  col c (weighted_matrix m weights) = map (rescale m weights c) (col c m).
Proof.
  intros Hc. unfold col, weighted_matrix. rewrite !map_map.
  apply map_ext. intros r. unfold weighted_row.
  rewrite entry_map_seq by exact Hc. reflexivity.
Qed.

Lemma norm_nonneg (c : list R) : (0 <= norm c)%R.
Proof. apply sqrt_pos. Qed.

Lemma rescale_mono (m : matrix) (weights : list R) (c : nat) (x y : R) :
  (0 <= entry weights c)%R → (x <= y)%R →
  (rescale m weights c x <= rescale m weights c y)%R.
Proof.
  intros Hw Hxy. unfold rescale, Rdiv.
  pose proof (Rinv_nonneg _ (norm_nonneg (col c m))) as Hn.
  apply Rmult_le_compat_r; [exact Hw|].
  apply Rmult_le_compat_r; [exact Hn|exact Hxy].
Qed.

Lemma Rmax_mono_fun (f : R → R) (a b : R) :
  (∀ x y, x <= y → f x <= f y)%R → f (Rmax a b) = Rmax (f a) (f b).
Proof.
  intros Hf. unfold Rmax.
  destruct (Rle_dec a b) as [Hab|Hab], (Rle_dec (f a) (f b)) as [Hfab|Hfab];
    try reflexivity.
  - exfalso. apply Hfab, Hf, Hab.
  - apply Rle_antisym; [exact Hfab|]. apply Hf. lra.
Qed.

Lemma Rmin_mono_fun (f : R → R) (a b : R) :
  (∀ x y, x <= y → f x <= f y)%R → f (Rmin a b) = Rmin (f a) (f b).
Proof.
  intros Hf. unfold Rmin.
  destruct (Rle_dec a b) as [Hab|Hab], (Rle_dec (f a) (f b)) as [Hfab|Hfab];
    try reflexivity.
  - exfalso. apply Hfab, Hf, Hab.
  - apply Rle_antisym; [|exact Hfab]. apply Hf. lra.
Qed.

Lemma MaxRlist_map_mono (f : R → R) (l : list R) :
  (∀ x y, x <= y → f x <= f y)%R → l ≠ [] →
  MaxRlist (map f l) = f (MaxRlist l).
Proof.
  intros Hf. induction l as [|a l IH]; intros Hne; [congruence|].
  destruct l as [|b l]; [reflexivity|].
  change (Rmax (f a) (MaxRlist (map f (b :: l))) = f (Rmax a (MaxRlist (b :: l)))).
  rewrite IH by discriminate. symmetry. apply Rmax_mono_fun, Hf.
Qed.

Lemma MinRlist_map_mono (f : R → R) (l : list R) :
  (∀ x y, x <= y → f x <= f y)%R → l ≠ [] →
  MinRlist (map f l) = f (MinRlist l).
Proof.
  intros Hf. induction l as [|a l IH]; intros Hne; [congruence|].
  destruct l as [|b l]; [reflexivity|].
  change (Rmin (f a) (MinRlist (map f (b :: l))) = f (Rmin a (MinRlist (b :: l)))).
  rewrite IH by discriminate. symmetry. apply Rmin_mono_fun, Hf.
Qed.

Lemma rectangular_lengths (m : matrix) (weights : list R)
    (directions : list direction) :
  rectangular m weights directions = true →
  length directions = length weights.
Proof.
  unfold rectangular. intros H. apply andb_true_iff in H as [H _].
  apply Nat.eqb_eq, H.
Qed.

(** Normalising and weighting the raw ideal row gives the ideal row of
    the weighted matrix, for the best as for the worst. *)
Lemma weighted_ideal_best (m : matrix) (weights : list R)
    (directions : list direction) :
  length directions = length weights → m ≠ [] →
  Forall (λ x, 0 <= x)%R weights →
  weighted_row m weights (ideal_best m directions) =
  ideal_best (weighted_matrix m weights) directions.
Proof.
  intros Hlen Hne Hw. apply list_eq. intros c.
  unfold weighted_row, ideal_best at 2.
  rewrite list_lookup_fmap, list_lookup_imap.
  destruct (directions !! c) as [d|] eqn:Hd.
  - assert (Hc : (c < length weights)%nat)
      by (rewrite <- Hlen; eapply lookup_lt_Some, Hd).
    rewrite lookup_seq_lt by exact Hc. simpl. f_equal.
    unfold ideal_best. rewrite (entry_imap _ _ _ _ Hd).
    rewrite col_weighted_matrix by exact Hc.
    assert (Hcol : col c m ≠ []) by (destruct m; [congruence|discriminate]).
    fold (rescale m weights c
            match d with Benefit => MaxRlist (col c m) | Cost => MinRlist (col c m) end).
    destruct d; symmetry;
      [apply MaxRlist_map_mono|apply MinRlist_map_mono]; try exact Hcol;
      intros x y; apply rescale_mono, Forall_entry_nonneg, Hw.
  - apply lookup_ge_None in Hd. rewrite lookup_seq_ge by lia. reflexivity.
Qed.

Lemma weighted_ideal_worst (m : matrix) (weights : list R)
    (directions : list direction) :
  length directions = length weights → m ≠ [] →
  Forall (λ x, 0 <= x)%R weights →
  weighted_row m weights (ideal_worst m directions) =
  ideal_worst (weighted_matrix m weights) directions.
Proof.
  intros Hlen Hne Hw. apply list_eq. intros c.
  unfold weighted_row, ideal_worst at 2.
  rewrite list_lookup_fmap, list_lookup_imap.
  destruct (directions !! c) as [d|] eqn:Hd.
  - assert (Hc : (c < length weights)%nat)
      by (rewrite <- Hlen; eapply lookup_lt_Some, Hd).
    rewrite lookup_seq_lt by exact Hc. simpl. f_equal.
    unfold ideal_worst. rewrite (entry_imap _ _ _ _ Hd).
    rewrite col_weighted_matrix by exact Hc.
    assert (Hcol : col c m ≠ []) by (destruct m; [congruence|discriminate]).
    fold (rescale m weights c
            match d with Benefit => MinRlist (col c m) | Cost => MaxRlist (col c m) end).
    destruct d; symmetry;
      [apply MinRlist_map_mono|apply MaxRlist_map_mono]; try exact Hcol;
      intros x y; apply rescale_mono, Forall_entry_nonneg, Hw.
  - apply lookup_ge_None in Hd. rewrite lookup_seq_ge by lia. reflexivity.
Qed.

Lemma distance_self (a : list R) : distance a a = 0%R.
Proof.
  unfold distance.
  assert (H : Rsum (zip_with (λ x y, (x - y) * (x - y))%R a a) = 0%R).
  { induction a as [|x a IH]; simpl; [reflexivity|]. rewrite IH. ring. }
  rewrite H. apply sqrt_0.
Qed.

Lemma closeness_best (d_minus : R) :
  closeness 0 d_minus = if Req_dec_T d_minus 0 then 0%R else 1%R.
Proof.
  unfold closeness. rewrite Rplus_0_l.
  destruct (Req_dec_T d_minus 0) as [E|E]; [reflexivity|].
  field. exact E.
Qed.

Lemma closeness_worst (d_plus : R) : closeness d_plus 0 = 0%R.
Proof.
  unfold closeness. destruct (Req_dec_T (d_plus + 0) 0); [reflexivity|].
  unfold Rdiv. ring.
Qed.

Lemma topsis_scores_lookup (m : matrix) (weights : list R)
    (directions : list direction) (i : nat) (r : list R) :
  m !! i = Some r →
  topsis_scores m weights directions !! i =
    Some (closeness
            (distance (weighted_row m weights r)
                      (ideal_best (weighted_matrix m weights) directions))
            (distance (weighted_row m weights r)
                      (ideal_worst (weighted_matrix m weights) directions))).
Proof.
  intros Hr. unfold topsis_scores, weighted_matrix.
  rewrite !list_lookup_fmap, Hr. reflexivity.
Qed.

Lemma run_topsis_ok (m : matrix) (weights : list R)
    (criteria_types : list direction) (scores : list R) :
  run_topsis m weights criteria_types = Ok scores →
  rectangular m weights criteria_types = true ∧
  scores = topsis_scores m weights criteria_types.
Proof.
  unfold run_topsis, TOPSIS.
  destruct (rectangular m weights criteria_types); [|discriminate].
  intros [= <-]. split; reflexivity.
Qed.

(** The score of a row equal to the raw ideal-best vector. *)
Lemma topsis_score_ideal_best (m : matrix) (weights : list R)
    (criteria_types : list direction) (scores : list R) (i : nat) :
  run_topsis m weights criteria_types = Ok scores →
  Forall (λ x, 0 <= x)%R weights →
  m !! i = Some (ideal_best m criteria_types) →
  scores !! i =
    Some (if Req_dec_T
               (distance (weighted_row m weights (ideal_best m criteria_types))
                         (ideal_worst (weighted_matrix m weights) criteria_types)) 0
          then 0%R else 1%R).
Proof.
  intros Hrun Hw Hi. apply run_topsis_ok in Hrun as [Hrect ->].
  rewrite (topsis_scores_lookup _ _ _ _ _ Hi).
  assert (Hne : m ≠ []) by (intros ->; discriminate).
  rewrite (weighted_ideal_best m weights criteria_types) at 1
    by eauto using rectangular_lengths.
  rewrite distance_self, closeness_best. reflexivity.
Qed.

(** The score of a row equal to the raw ideal-worst vector. *)
Lemma topsis_score_ideal_worst (m : matrix) (weights : list R)
    (criteria_types : list direction) (scores : list R) (i : nat) :
  run_topsis m weights criteria_types = Ok scores →
  Forall (λ x, 0 <= x)%R weights →
  m !! i = Some (ideal_worst m criteria_types) →
  scores !! i = Some 0%R.
Proof.
  intros Hrun Hw Hi. apply run_topsis_ok in Hrun as [Hrect ->].
  rewrite (topsis_scores_lookup _ _ _ _ _ Hi).
  assert (Hne : m ≠ []) by (intros ->; discriminate).
  rewrite (weighted_ideal_worst m weights criteria_types)
    by eauto using rectangular_lengths.
  rewrite distance_self, closeness_worst. reflexivity.
Qed.

(** ** The scenario of section 8 *)

Lemma scenario_norm0 : norm [1; 2; 3/2] = sqrt (29 / 4).
Proof. unfold norm. f_equal. simpl. lra. Qed.

Lemma scenario_norm1 : norm [2; 1; 3/2] = sqrt (29 / 4).
Proof. unfold norm. f_equal. simpl. lra. Qed.

Lemma scenario_scale_pos : 0 < scenario_scale.
Proof.
  unfold scenario_scale. apply Rmult_lt_0_compat; [|lra].
  apply Rinv_0_lt_compat, sqrt_lt_R0. lra.
Qed.

Lemma scenario_weighted :
  weighted_matrix scenario_matrix scenario_weights =
  [[1 * scenario_scale; 2 * scenario_scale];
   [2 * scenario_scale; 1 * scenario_scale];
   [3 / 2 * scenario_scale; 3 / 2 * scenario_scale]].
Proof.
  unfold weighted_matrix, weighted_row, rescale. simpl.
  unfold entry, scenario_weights. simpl.
  rewrite scenario_norm0, scenario_norm1. unfold scenario_scale.
  repeat (f_equal; try (unfold Rdiv; ring)).
Qed.

(** The three scores of the scenario. *)
Lemma scenario_scores :
  topsis_scores scenario_matrix scenario_weights scenario_directions =
  [0; 1; 1 / 2].
Proof.
  unfold topsis_scores. rewrite scenario_weighted.
  pose proof scenario_scale_pos as Hk.
  generalize dependent scenario_scale. intros k Hk.
  unfold ideal_best, ideal_worst, col, entry, scenario_directions. simpl.
  unfold Rmax, Rmin.
  repeat (destruct (Rle_dec _ _); try lra).
  rewrite !distance_self, closeness_worst, closeness_best.
  assert (H1 : distance [2 * k; 1 * k] [1 * k; 2 * k] = sqrt (2 * (k * k))).
  { unfold distance. simpl. f_equal. ring. }
  assert (H2 : distance [3 / 2 * k; 3 / 2 * k] [2 * k; 1 * k] = sqrt (k * k / 2)).
  { unfold distance. simpl. f_equal. field. }
  assert (H3 : distance [3 / 2 * k; 3 / 2 * k] [1 * k; 2 * k] = sqrt (k * k / 2)).
  { unfold distance. simpl. f_equal. field. }
  rewrite H1, H2, H3.
  assert (Hkk : 0 < k * k) by (apply Rmult_lt_0_compat; lra).
  assert (Ha : 0 < sqrt (2 * (k * k))) by (apply sqrt_lt_R0; lra).
  assert (Hb : 0 < sqrt (k * k / 2)) by (apply sqrt_lt_R0; lra).
  destruct (Req_dec_T (sqrt (2 * (k * k))) 0) as [E|_]; [lra|].
  unfold closeness.
  destruct (Req_dec_T (sqrt (k * k / 2) + sqrt (k * k / 2)) 0) as [E|_]; [lra|].
  replace (sqrt (k * k / 2) / (sqrt (k * k / 2) + sqrt (k * k / 2))) with (1 / 2)
    by (field; lra).
  reflexivity.
Qed.

(** The ranks of the scores 0, 1 and 1/2. *)
Lemma scenario_ranks : ranks_of [0; 1; 1/2] = [3; 1; 2]%nat.
Proof.
  unfold ranks_of, rankdata. simpl. unfold Rltb.
  repeat (destruct (Rlt_dec _ _); try lra). reflexivity.
Qed.

Lemma scenario_ideal_best :
  [2; 1] = ideal_best scenario_matrix scenario_directions.
Proof.
  unfold ideal_best, scenario_matrix, scenario_directions, col, entry. simpl.
  unfold Rmax, Rmin.
  repeat (destruct (Rle_dec _ _); try lra). reflexivity.
Qed.

Lemma run_topsis_scenario :
  run_topsis scenario_matrix scenario_weights scenario_directions =
    Ok [0; 1; 1 / 2].
Proof.
  unfold run_topsis, TOPSIS. rewrite <- scenario_scores. reflexivity.
Qed.

(** ** Theorems on TOPSIS *)

(** C2 (as amended).  With non-negative weights, a row equal to the
    ideal-best vector of the matrix has score 1, unless its normalised and
    weighted form coincides with the ideal-worst vector too, where the
    score is the fallback 0; a row equal to the ideal-worst vector has
    score 0. *)
Theorem topsis_ideal_rows (m : matrix) (weights : list R)
    (criteria_types : list direction) (scores : list R) (i : nat)
    (r : list R) :
  run_topsis m weights criteria_types = Ok scores →
  Forall (λ x, 0 <= x)%R weights →
  m !! i = Some r →
  (r = ideal_best m criteria_types →
   scores !! i =
     Some (if Req_dec_T
                (distance (weighted_row m weights r)
                          (ideal_worst (weighted_matrix m weights) criteria_types)) 0
           then 0%R else 1%R)) ∧
  (r = ideal_worst m criteria_types → scores !! i = Some 0%R).
Proof.
  intros Hrun Hw Hi. split; intros ->.
  - eapply topsis_score_ideal_best; eassumption.
  - eapply topsis_score_ideal_worst; eassumption.
Qed.

(** The theorem on row 1 of the scenario, its ideal-best row. *)
Lemma topsis_ideal_rows_scenario :
  run_topsis scenario_matrix scenario_weights scenario_directions =
    Ok [0; 1; 1 / 2] ∧
  Forall (λ x, 0 <= x) scenario_weights ∧
  scenario_matrix !! 1%nat = Some [2; 1] ∧
  [2; 1] = ideal_best scenario_matrix scenario_directions ∧
  [0; 1; 1 / 2] !! 1%nat =
    Some (if Req_dec_T
               (distance (weighted_row scenario_matrix scenario_weights [2; 1])
                  (ideal_worst
                     (weighted_matrix scenario_matrix scenario_weights)
                     scenario_directions)) 0
          then 0 else 1).
Proof.
  assert (Hw : Forall (λ x, 0 <= x) scenario_weights)
    by (repeat constructor; lra).
  split; [exact run_topsis_scenario|].
  split; [exact Hw|].
  split; [reflexivity|].
  split; [exact scenario_ideal_best|].
  exact (proj1 (topsis_ideal_rows scenario_matrix scenario_weights
                  scenario_directions [0; 1; 1 / 2] 1 [2; 1]
                  run_topsis_scenario Hw eq_refl)
               scenario_ideal_best).
Defined.

(** C2 (as stated) fails: the only row of a one-row matrix is its
    ideal-best vector, and its score is 0. *)
Lemma topsis_lone_row_scores_zero :
  ¬ (∀ scores : list R,
       run_topsis [[1]]%R [1]%R [Benefit] = Ok scores →
       [[1]]%R !! 0%nat = Some (ideal_best [[1]]%R [Benefit]) →
       scores !! 0%nat = Some 1%R).
Proof.
  intros H.
  specialize (H _ eq_refl eq_refl).
  rewrite (topsis_score_ideal_worst [[1]]%R [1]%R [Benefit] _ 0) in H.
  - injection H as H. lra.
  - reflexivity.
  - repeat constructor. lra.
  - reflexivity.
Qed.

(** C6 (as amended).  On the matrix [[1,2],[2,1],[1.5,1.5]] with
    directions [+1,-1] and weights [0.5,0.5], TOPSIS scores the rows 0, 1
    and 0.5: row 1 has rank 1, row 2 rank 2 and row 0 rank 3. *)
Theorem topsis_scenario_ranks :
  run_topsis scenario_matrix scenario_weights scenario_directions =
    Ok [0; 1; 1 / 2] ∧
  ranks_of [0; 1; 1 / 2] = [3; 1; 2]%nat.
Proof. split; [exact run_topsis_scenario|exact scenario_ranks]. Qed.

(** C6 (as stated) fails: the ranks of the scenario are not 1, 1 and 3. *)
Lemma topsis_scenario_no_tie :
  ¬ (∃ scores : list R,
       run_topsis scenario_matrix scenario_weights scenario_directions =
         Ok scores ∧
       ranks_of scores = [1; 1; 3]%nat).
Proof.
  intros (scores & Hrun & Hranks).
  rewrite run_topsis_scenario in Hrun. injection Hrun as <-.
  rewrite scenario_ranks in Hranks. discriminate.
Qed.

(** * More of the dashboard: proofs *)

(** ** More on the filter *)

Lemma production_not_a_filter_key : "Production (ton)" ∉ filter_keys.
Proof.
  unfold filter_keys. rewrite !not_elem_of_cons. repeat split; try discriminate.
  apply not_elem_of_nil.
Qed.

(** X1.  The filter reads the rules under Bandgap, ESG Score, Toxicity
    and CO2 footprint max (kg/kg) and no other: two rule sets that agree
    under these four keys give the same rows, so that a rule under
    "Production (ton)" changes nothing. *)
Theorem filter_dataframe_four_keys (df : DataFrame)
    (filters1 filters2 : gmap string (cell * cell))
    (names : option (list string)) :
  (∀ key, key ∈ filter_keys → filters1 !! key = filters2 !! key) →
  filter_dataframe df filters1 names = filter_dataframe df filters2 names.
Proof.
  intros Hkeys. rewrite !filter_dataframe_filter. apply list_filter_iff.
  intros r. unfold admitted.
  rewrite !Hkeys by (apply list_elem_of_In; simpl; auto 10). reflexivity.
Qed.

(** The theorem on the sample dataset: the rule [main] stores under
    "Production (ton)" lets through TiO2, of production 9000. *)
Lemma filter_dataframe_four_keys_sample :
  (∀ key, key ∈ filter_keys →
     (<["Production (ton)" := (Num 0, Num 100)]> bandgap_rule) !! key =
     bandgap_rule !! key) ∧
  (filter_dataframe sample_df
     (<["Production (ton)" := (Num 0, Num 100)]> bandgap_rule) None =
   filter_dataframe sample_df bandgap_rule None).
Proof.
  assert (Hkeys : ∀ key, key ∈ filter_keys →
     (<["Production (ton)" := (Num 0, Num 100)]> bandgap_rule) !! key =
     bandgap_rule !! key).
  { intros key Hkey. apply lookup_insert_ne. intros <-.
    exact (production_not_a_filter_key Hkey). }
  split; [exact Hkeys|].
  exact (filter_dataframe_four_keys sample_df _ bandgap_rule None Hkeys).
Defined.

(** X3.  Selecting the names first and filtering the ranges afterwards
    gives what the filter gives with the name list. *)
Theorem filter_dataframe_names_first (df : DataFrame)
    (filters : gmap string (cell * cell)) (names : list string) :
  filter_dataframe (List.filter (λ r, isin (Name r) names) df) filters None =
  filter_dataframe df filters (Some names).
Proof.
  rewrite !filter_dataframe_filter.
  rewrite (filter_bool_decide _ (λ r, name_allowed (Name r) (Some names)))
    by (intros; apply isin_elem_of).
  rewrite list_filter_filter. apply list_filter_iff.
  intros r. unfold admitted. simpl. tauto.
Qed.

Lemma filter_sublist_impl {A} (P Q : A → Prop)
    `{∀ x, Decision (P x)} `{∀ x, Decision (Q x)} (l : list A) :
  (∀ x, P x → Q x) → filter P l `sublist_of` filter Q l.
Proof.
  intros HPQ. induction l as [|a l IH]; [constructor|].
  rewrite !filter_cons.
  destruct (decide (P a)) as [HP|HP], (decide (Q a)) as [HQ|HQ].
  - apply sublist_skip, IH.
  - exfalso. apply HQ, HPQ, HP.
  - apply sublist_cons, IH.
  - exact IH.
Qed.

Lemma in_range_within (x : cell) (inner outer : option (cell * cell)) :
  rule_within inner outer → in_range x inner → in_range x outer.
Proof.
  destruct x as [|q]; [tauto|].
  destruct outer as [[[|lo1] [|hi1]]|], inner as [[[|lo2] [|hi2]]|];
    simpl; try tauto.
  intros [Hlo Hhi] [H1 H2]. split; eapply Qle_trans; eassumption.
Qed.

Lemma name_allowed_within (n : string) (inner outer : option (list string)) :
  names_within inner outer → name_allowed n inner → name_allowed n outer.
Proof.
  destruct outer as [ns1|], inner as [ns2|]; simpl; try tauto.
  intros Hsub Hn. apply Hsub, Hn.
Qed.

(** X4.  Narrowing the rules never adds a row: when every rule of
    [narrow] lies within the rule of [wide] for its column, and the names
    allowed are among those allowed before, the rows kept are a sublist
    of the rows kept before. *)
Theorem filter_dataframe_narrower (df : DataFrame)
    (narrow wide : gmap string (cell * cell))
    (names_narrow names_wide : option (list string)) :
  (∀ key, key ∈ filter_keys → rule_within (narrow !! key) (wide !! key)) →
  names_within names_narrow names_wide →
  filter_dataframe df narrow names_narrow `sublist_of`
  filter_dataframe df wide names_wide.
Proof.
  intros Hrules Hnames. rewrite !filter_dataframe_filter.
  apply filter_sublist_impl. intros r (H1 & H2 & H3 & H4 & Hn).
  unfold admitted, filter_keys in *.
  repeat split;
    try (eapply in_range_within; [apply Hrules|eassumption]; set_solver).
  eapply name_allowed_within; eassumption.
Qed.

(** The theorem on the sample dataset: a narrower bandgap rule and a name
    list against the bandgap rule alone. *)
Lemma filter_dataframe_narrower_sample :
  (∀ key, key ∈ filter_keys →
     rule_within (({["Bandgap" := (Num (31 # 10), Num (32 # 10))]}
                     : gmap string (cell * cell)) !! key)
                 (bandgap_rule !! key)) ∧
  names_within (Some ["TiO2"]) None ∧
  filter_dataframe sample_df
    {["Bandgap" := (Num (31 # 10), Num (32 # 10))]} (Some ["TiO2"])
    `sublist_of` filter_dataframe sample_df bandgap_rule None.
Proof.
  assert (Hrules : ∀ key, key ∈ filter_keys →
     rule_within (({["Bandgap" := (Num (31 # 10), Num (32 # 10))]}
                     : gmap string (cell * cell)) !! key)
                 (bandgap_rule !! key)).
  { intros key Hkey. unfold filter_keys in Hkey.
    rewrite !elem_of_cons, elem_of_nil in Hkey.
    destruct Hkey as [-> | [-> | [-> | [-> | []]]]]; vm_compute;
      try exact I; split; discriminate. }
  split; [exact Hrules|]. split; [exact I|].
  exact (filter_dataframe_narrower sample_df _ bandgap_rule
           (Some ["TiO2"]) None Hrules I).
Defined.

Lemma filter_none {A} (P : A → Prop) `{∀ x, Decision (P x)} (l : list A) :
  (∀ x, ¬ P x) → filter P l = [].
Proof.
  intros HP. induction l as [|a l IH]; [reflexivity|].
  rewrite filter_cons. destruct (decide (P a)) as [Ha|_]; [|exact IH].
  exfalso. exact (HP a Ha).
Qed.

(** X5.  A rule whose lower bound is above its upper bound, on one of the
    four columns, leaves no row. *)
Theorem filter_dataframe_inverted_range (df : DataFrame)
    (filters : gmap string (cell * cell)) (names : option (list string))
    (key : string) (lo hi : Q) :
  key ∈ filter_keys → filters !! key = Some (Num lo, Num hi) → (hi < lo)%Q →
  filter_dataframe df filters names = [].
Proof.
  intros Hkey Hrule Hinv. rewrite filter_dataframe_filter.
  apply filter_none. intros r (H1 & H2 & H3 & H4 & _).
  assert (Hno : ∀ x, ¬ in_range x (Some (Num lo, Num hi))).
  { intros [|q]; simpl; [tauto|]. intros [Hlo Hhi].
    apply (Qlt_irrefl lo). eapply Qle_lt_trans; [|exact Hinv].
    eapply Qle_trans; eassumption. }
  unfold filter_keys in Hkey. rewrite !elem_of_cons, elem_of_nil in Hkey.
  destruct Hkey as [-> | [-> | [-> | [-> | []]]]];
    rewrite Hrule in *; eapply Hno; eassumption.
Qed.

(** The theorem on the sample dataset, with the bandgap between 4 and 3. *)
Lemma filter_dataframe_inverted_sample :
  "Bandgap" ∈ filter_keys ∧
  ({["Bandgap" := (Num 4, Num 3)]} : gmap string (cell * cell)) !! "Bandgap" =
    Some (Num 4, Num 3) ∧
  (3 < 4)%Q ∧
  filter_dataframe sample_df {["Bandgap" := (Num 4, Num 3)]} None = [].
Proof.
  assert (Hkey : "Bandgap" ∈ filter_keys) by left.
  assert (Hlt : (3 < 4)%Q) by reflexivity.
  split; [exact Hkey|]. split; [reflexivity|]. split; [exact Hlt|].
  exact (filter_dataframe_inverted_range sample_df
           {["Bandgap" := (Num 4, Num 3)]} None "Bandgap" 4 3
           Hkey eq_refl Hlt).
Defined.

(** ** The Bandgap Analysis page *)

(** X6.  The Bandgap Analysis page shows exactly the materials of [df1]
    that have a bandgap, whose ESG score, toxicity and CO2 footprint lie
    within the three sliders, and that are among the selected names when
    some are selected; with no name selected every such material is
    shown, and the bandgap itself is not constrained. *)
Theorem bandgap_page_filtered_exactly (df1 : DataFrame)
    (esg_range toxicity_range co2_range : Q * Q)
    (selected_names : list string) (r : row) :
  r ∈ bandgap_page_filtered df1 esg_range toxicity_range co2_range
        selected_names ↔
  r ∈ df1 ∧ present (Bandgap r) ∧
  in_range (ESG_Score r) (Some (rule esg_range)) ∧
  in_range (Toxicity r) (Some (rule toxicity_range)) ∧
  in_range (CO2_footprint_max r) (Some (rule co2_range)) ∧
  (selected_names = [] ∨ Name r ∈ selected_names).
Proof.
  unfold bandgap_page_filtered. rewrite filter_dataframe_filter.
  rewrite list_elem_of_filter. unfold admitted, bandgap_page_filters.
  assert (Hb : in_range (Bandgap r) None ↔ present (Bandgap r)).
  { unfold present. destruct (Bandgap r); simpl; intuition congruence. }
  assert (Hn : name_allowed (Name r)
                 match selected_names with
                 | [] => None
                 | _ :: _ => Some selected_names
                 end ↔ selected_names = [] ∨ Name r ∈ selected_names).
  { destruct selected_names as [|n ns]; simpl; [tauto|].
    split; [auto|]. intros [H|H]; [discriminate|exact H]. }
  simpl. rewrite Hn. 
  change (list_to_map _ !! "Bandgap") with (@None (cell * cell)).
  rewrite Hb. tauto.
Qed.

(** ** The filters kept in the session *)

Lemma dict_update_lookup (new : list (string * (cell * cell)))
    (d : gmap string (cell * cell)) (key : string) (range : cell * cell) :
  dict_update new d !! key = Some range →
  (key, range) ∈ new ∨ d !! key = Some range.
Proof.
  unfold dict_update. intros H. apply lookup_union_Some_raw in H as [H|[_ H]].
  - left. apply elem_of_list_to_map_2, H.
  - right. exact H.
Qed.

Lemma dict_update_is_Some (new : list (string * (cell * cell)))
    (d : gmap string (cell * cell)) (key : string) :
  is_Some (d !! key) → is_Some (dict_update new d !! key).
Proof.
  unfold dict_update. intros H. apply lookup_union_is_Some. right. exact H.
Qed.

Lemma dict_update_is_Some_new (new : list (string * (cell * cell)))
    (d : gmap string (cell * cell)) (key : string) :
  is_Some ((list_to_map new : gmap string (cell * cell)) !! key) →
  is_Some (dict_update new d !! key).
Proof.
  unfold dict_update. intros H. apply lookup_union_is_Some. left. exact H.
Qed.

Ltac rule_stored :=
  first [ apply dict_update_is_Some_new; eexists; vm_compute; reflexivity
        | apply dict_update_is_Some;
          first [ assumption
                | rewrite lookup_insert_eq; eexists; reflexivity ] ].

Lemma good_rules_empty : good_rules ∅.
Proof. intros key range H. rewrite lookup_empty in H. discriminate. Qed.

Lemma good_rules_update (new : list (string * (cell * cell)))
    (d : gmap string (cell * cell)) :
  Forall (λ kv, fst kv ∈ session_keys ∧ ∃ q, snd kv = rule q) new →
  good_rules d → good_rules (dict_update new d).
Proof.
  intros Hnew Hd key range H.
  apply dict_update_lookup in H as [H|H]; [|exact (Hd _ _ H)].
  rewrite Forall_forall in Hnew. exact (Hnew _ H).
Qed.

Lemma good_rules_insert (key : string) (q : Q * Q)
    (d : gmap string (cell * cell)) :
  key ∈ session_keys → good_rules d → good_rules (<[key := rule q]> d).
Proof.
  intros Hkey Hd k range H.
  destruct (decide (key = k)) as [<-|Hne].
  - rewrite lookup_insert_eq in H. injection H as <-. eauto.
  - rewrite lookup_insert_ne in H by exact Hne. exact (Hd _ _ H).
Qed.

Ltac session_keys_solver :=
  repeat (apply Forall_cons; split;
          [split; [apply list_elem_of_In; simpl; auto 10
                  |eexists; reflexivity]|]);
  apply Forall_nil_2.

Lemma session_invariant_step (s : session) (ev : rerun) :
  session_invariant s → session_invariant (step s ev).
Proof.
  intros Hs. destruct ev as [| |a b e t p|a b e t p]; try exact Hs.
  - destruct s as [[f|] sel]; unfold session_invariant in *; simpl in *.
    + destruct Hs as [Hgood Hsel]. destruct a.
      * split; [apply good_rules_update; [session_keys_solver|exact Hgood]|].
        intros Htrue. destruct (Hsel Htrue) as (H1 & H2 & H3).
        repeat split; apply dict_update_is_Some; assumption.
      * split; assumption.
    + subst sel. split; [|discriminate]. destruct a.
      * apply good_rules_update; [session_keys_solver|apply good_rules_empty].
      * apply good_rules_empty.
  - unfold session_invariant, step, mcdm_analysis.
    destruct s as [[f|] sel]; simpl in *.
    + destruct Hs as [Hgood Hsel]. destruct a; simpl.
      * split.
        -- apply good_rules_update; [session_keys_solver|].
           apply good_rules_insert; [|exact Hgood].
           apply list_elem_of_In; simpl; auto.
        -- intros _. repeat split; rule_stored.
      * destruct sel; simpl; [|split; [exact Hgood|discriminate]].
        destruct (Hsel eq_refl) as (H1 & H2 & H3). split.
        -- apply good_rules_update; [session_keys_solver|exact Hgood].
        -- intros _. repeat split; rule_stored.
    + destruct a; simpl.
      * split.
        -- apply good_rules_update; [session_keys_solver|].
           apply good_rules_insert; [|apply good_rules_empty].
           apply list_elem_of_In; simpl; auto.
        -- intros _. repeat split; rule_stored.
      * split; [apply good_rules_empty|discriminate].
Qed.

Lemma run_session_invariant (evs : list rerun) : session_invariant (run evs).
Proof.
  unfold run. induction evs as [|ev evs IH] using rev_ind.
  - reflexivity.
  - rewrite foldl_app. simpl. apply session_invariant_step, IH.
Qed.

(** X7.  Whatever pages are run, with whatever buttons and sliders, every
    rule stored in the session is under Bandgap, ESG Score, Toxicity or
    Production (ton), never under the CO2 footprint, and has numbers for
    bounds; and [bandgap_selected] is set only with rules on the bandgap,
    the ESG score and the toxicity stored. *)
Theorem session_rules_after_run (evs : list rerun) :
  (∀ filters key range,
     session_filters (run evs) = Some filters →
     filters !! key = Some range →
     key ∈ session_keys ∧ ∃ q, range = rule q) ∧
  (bandgap_selected (run evs) = true →
   ∃ filters,
     session_filters (run evs) = Some filters ∧
     is_Some (filters !! "Bandgap") ∧ is_Some (filters !! "ESG Score") ∧
     is_Some (filters !! "Toxicity")).
Proof.
  pose proof (run_session_invariant evs) as Hinv.
  unfold session_invariant in Hinv.
  destruct (session_filters (run evs)) as [f|].
  - destruct Hinv as [Hgood Hsel]. split.
    + intros filters key range [= <-]. apply Hgood.
    + intros Htrue. exists f. split; [reflexivity|apply Hsel, Htrue].
  - split; [discriminate|]. rewrite Hinv. discriminate.
Qed.

Lemma co2_not_a_session_key : "CO2 footprint max (kg/kg)" ∉ session_keys.
Proof.
  unfold session_keys. rewrite !not_elem_of_cons. repeat split; try discriminate.
  apply not_elem_of_nil.
Qed.

(** The candidates of the MCDM page in a session that keeps the
    invariant. *)
Lemma mcdm_filtered_invariant (df : DataFrame) (s : session)
    (result : DataFrame) :
  session_invariant s → mcdm_filtered df s = Some result →
  ∃ (filters : gmap string (cell * cell)) (b e t : Q * Q),
    session_filters s = Some filters ∧
    filters !! "Bandgap" = Some (rule b) ∧
    filters !! "ESG Score" = Some (rule e) ∧
    filters !! "Toxicity" = Some (rule t) ∧
    filters !! "CO2 footprint max (kg/kg)" = None ∧
    ∀ r,
      r ∈ result ↔
      r ∈ df ∧ present (CO2_footprint_max r) ∧
      in_range (Bandgap r) (Some (rule b)) ∧
      in_range (ESG_Score r) (Some (rule e)) ∧
      in_range (Toxicity r) (Some (rule t)).
Proof.
  unfold session_invariant, mcdm_filtered.
  destruct s as [[f|] sel];
    cbn [session_filters bandgap_selected from_option id];
    intros Hinv Hres; destruct sel; try discriminate.
  destruct Hinv as [Hgood Hsel].
  change (Some (filter_dataframe df f None) = Some result) in Hres.
  apply (inj Some) in Hres. subst result.
  destruct (Hsel eq_refl) as ([rb Hb] & [re He] & [rt Ht]).
  destruct (Hgood _ _ Hb) as [_ [b ->]].
  destruct (Hgood _ _ He) as [_ [e ->]].
  destruct (Hgood _ _ Ht) as [_ [t ->]].
  assert (Hc : f !! "CO2 footprint max (kg/kg)" = None).
  { destruct (f !! "CO2 footprint max (kg/kg)") as [rc|] eqn:E; [|reflexivity].
    destruct (Hgood _ _ E) as [Hkey _].
    exfalso. exact (co2_not_a_session_key Hkey). }
  exists f, b, e, t. do 5 (split; [reflexivity || assumption|]). intros r.
  rewrite filter_dataframe_filter, list_elem_of_filter.
  unfold admitted. rewrite Hb, He, Ht, Hc. simpl.
  assert (Hp : in_range (CO2_footprint_max r) None ↔
               present (CO2_footprint_max r)).
  { unfold present. destruct (CO2_footprint_max r); simpl; intuition congruence. }
  rewrite Hp. tauto.
Qed.

(** X8.  Whatever was done before, when the MCDM page computes its
    candidates the session holds a rule on the bandgap, one on the ESG
    score and one on the toxicity, each a range of numbers, and none on
    the CO2 footprint; the candidates are the rows of the dataset with a
    CO2 footprint whose bandgap, ESG score and toxicity lie within these
    three stored ranges: neither the CO2 footprint nor the Production
    slider constrains them. *)
Theorem mcdm_filtered_exactly (df : DataFrame) (evs : list rerun)
    (result : DataFrame) :
  mcdm_filtered df (run evs) = Some result →
  ∃ (filters : gmap string (cell * cell)) (b e t : Q * Q),
    session_filters (run evs) = Some filters ∧
    filters !! "Bandgap" = Some (rule b) ∧
    filters !! "ESG Score" = Some (rule e) ∧
    filters !! "Toxicity" = Some (rule t) ∧
    filters !! "CO2 footprint max (kg/kg)" = None ∧
    ∀ r,
      r ∈ result ↔
      r ∈ df ∧ present (CO2_footprint_max r) ∧
      in_range (Bandgap r) (Some (rule b)) ∧
      in_range (ESG_Score r) (Some (rule e)) ∧
      in_range (Toxicity r) (Some (rule t)).
Proof. apply mcdm_filtered_invariant, run_session_invariant. Qed.

(** The three sliders the MCDM Analysis page stores at every run. *)
Lemma mcdm_update_lookup (e t p : Q * Q) (d : gmap string (cell * cell)) :
  dict_update [("ESG Score", rule e); ("Toxicity", rule t);
               ("Production (ton)", rule p)] d !! "ESG Score" = Some (rule e) ∧
  dict_update [("ESG Score", rule e); ("Toxicity", rule t);
               ("Production (ton)", rule p)] d !! "Toxicity" = Some (rule t) ∧
  dict_update [("ESG Score", rule e); ("Toxicity", rule t);
               ("Production (ton)", rule p)] d !! "Bandgap" = d !! "Bandgap".
Proof.
  unfold dict_update. rewrite !list_to_map_cons, list_to_map_nil.
  repeat split.
  - apply lookup_union_Some_l, lookup_insert_eq.
  - apply lookup_union_Some_l.
    rewrite lookup_insert_ne by discriminate. apply lookup_insert_eq.
  - apply lookup_union_r.
    rewrite !lookup_insert_ne by discriminate. apply lookup_empty.
Qed.

Lemma rule_inj (q1 q2 : Q * Q) : rule q1 = rule q2 → q1 = q2.
Proof.
  destruct q1 as [a1 b1], q2 as [a2 b2]. unfold rule. cbn [fst snd].
  intros [= -> ->]. reflexivity.
Qed.

(** The rules in the session at the end of a run of the MCDM Analysis
    page that shows candidates. *)
Lemma mcdm_analysis_rules (apply_bandgap : bool)
    (bandgap_range esg_range toxicity_range production_range : Q * Q)
    (s : session) :
  bandgap_selected (mcdm_analysis apply_bandgap bandgap_range esg_range
                      toxicity_range production_range s) = true →
  ∃ filters,
    session_filters (mcdm_analysis apply_bandgap bandgap_range esg_range
                       toxicity_range production_range s) = Some filters ∧
    filters !! "ESG Score" = Some (rule esg_range) ∧
    filters !! "Toxicity" = Some (rule toxicity_range) ∧
    filters !! "Bandgap" =
      if apply_bandgap then Some (rule bandgap_range)
      else default ∅ (session_filters s) !! "Bandgap".
Proof.
  unfold mcdm_analysis.
  destruct s as [[f|] sel], apply_bandgap;
    cbn [session_filters bandgap_selected default from_option id];
    try destruct sel; cbn [session_filters bandgap_selected];
    try discriminate; intros _; eexists; (split; [reflexivity|]);
    match goal with
    | |- context [dict_update _ ?d] =>
        destruct (mcdm_update_lookup esg_range toxicity_range
                    production_range d) as (He & Ht & Hb)
    end;
    rewrite He, Ht, Hb, ?lookup_insert_eq; auto.
Qed.

(** X18.  The candidates the MCDM Analysis page shows at the end of a run
    are the rows of the dataset with a CO2 footprint whose ESG score and
    toxicity lie within the ranges of the two sliders of this very run,
    and whose bandgap lies within the range just applied with the button
    or, the button not pressed, within the bandgap range the session held
    before the run. *)
Theorem mcdm_page_candidates (df : DataFrame) (evs : list rerun)
    (apply_bandgap : bool)
    (bandgap_range esg_range toxicity_range production_range : Q * Q)
    (result : DataFrame) :
  mcdm_filtered df
    (run (evs ++ [MCDMAnalysis apply_bandgap bandgap_range esg_range
                    toxicity_range production_range])%list) = Some result →
  ∃ b : Q * Q,
    (if apply_bandgap then b = bandgap_range
     else ∃ filters, session_filters (run evs) = Some filters ∧
                     filters !! "Bandgap" = Some (rule b)) ∧
    ∀ r,
      r ∈ result ↔
      r ∈ df ∧ present (CO2_footprint_max r) ∧
      in_range (Bandgap r) (Some (rule b)) ∧
      in_range (ESG_Score r) (Some (rule esg_range)) ∧
      in_range (Toxicity r) (Some (rule toxicity_range)).
Proof.
  intros Hres.
  pose proof (run_session_invariant
                (evs ++ [MCDMAnalysis apply_bandgap bandgap_range esg_range
                           toxicity_range production_range])%list) as Hinv.
  destruct (mcdm_filtered_invariant df _ result Hinv Hres)
    as (filters & b & e & t & Hf & Hb & He & Ht & _ & Hiff).
  assert (Hsel : bandgap_selected
                   (run (evs ++ [MCDMAnalysis apply_bandgap bandgap_range
                                   esg_range toxicity_range
                                   production_range])%list) = true).
  { unfold mcdm_filtered in Hres.
    destruct (bandgap_selected _); [reflexivity|discriminate]. }
  unfold run in Hf, Hsel. rewrite foldl_app in Hf, Hsel.
  cbn [foldl step] in Hf, Hsel. fold (run evs) in Hf, Hsel.
  destruct (mcdm_analysis_rules _ _ _ _ _ _ Hsel)
    as (filters' & Hf' & He' & Ht' & Hb').
  rewrite Hf in Hf'. apply (inj Some) in Hf'. subst filters'.
  rewrite He in He'. apply (inj Some) in He'.
  rewrite Ht in Ht'. apply (inj Some) in Ht'.
  rewrite Hb in Hb'.
  exists b. split.
  - destruct apply_bandgap.
    + apply (inj Some) in Hb'. apply rule_inj, Hb'.
    + destruct (session_filters (run evs)) as [f0|] eqn:E.
      * exists f0. split; [reflexivity|]. symmetry. exact Hb'.
      * cbn [default from_option id] in Hb'. rewrite lookup_empty in Hb'.
        discriminate.
  - intros r. rewrite (Hiff r), He', Ht'. reflexivity.
Qed.

(** The theorem on the sample dataset: the last of [sample_runs] is a run
    of the MCDM Analysis page with the button pressed. *)
Lemma mcdm_page_candidates_sample :
  mcdm_filtered sample_df
    (run ([CustomAnalysis true (0, 4) (0, 3) (0, 3) (0, 100)]%Q ++
          [MCDMAnalysis true (3, 32 # 10) (0, 35 # 10) (0, 3) (0, 100)]%Q)%list) =
    Some [tio2_row] ∧
  ∃ b : Q * Q,
    b = (3, 32 # 10)%Q ∧
    ∀ r,
      r ∈ [tio2_row] ↔
      r ∈ sample_df ∧ present (CO2_footprint_max r) ∧
      in_range (Bandgap r) (Some (rule b)) ∧
      in_range (ESG_Score r) (Some (rule (0, 35 # 10)%Q)) ∧
      in_range (Toxicity r) (Some (rule (0, 3)%Q)).
Proof.
  assert (H : mcdm_filtered sample_df
    (run ([CustomAnalysis true (0, 4) (0, 3) (0, 3) (0, 100)]%Q ++
          [MCDMAnalysis true (3, 32 # 10) (0, 35 # 10) (0, 3) (0, 100)]%Q)%list) =
    Some [tio2_row]) by (vm_compute; reflexivity).
  split; [exact H|].
  exact (mcdm_page_candidates sample_df
           [CustomAnalysis true (0, 4) (0, 3) (0, 3) (0, 100)]%Q
           true (3, 32 # 10)%Q (0, 35 # 10)%Q (0, 3)%Q (0, 100)%Q
           [tio2_row] H).
Defined.

(** ** The memoised filter *)

Lemma cell_eqb_refl (a : cell) : cell_eqb a a = true.
Proof. destruct a as [|q]; [reflexivity|]. apply Qeq_bool_iff. reflexivity. Qed.

Lemma cell_eqb_sym (a b : cell) : cell_eqb a b = true → cell_eqb b a = true.
Proof.
  destruct a as [|x], b as [|y]; simpl; try discriminate; [reflexivity|].
  rewrite !Qeq_bool_iff. intros H. symmetry. exact H.
Qed.

Lemma cell_eqb_trans (a b c : cell) :
  cell_eqb a b = true → cell_eqb b c = true → cell_eqb a c = true.
Proof.
  destruct a as [|x], b as [|y], c as [|z]; simpl; try discriminate;
    [reflexivity|].
  rewrite !Qeq_bool_iff. intros H1 H2. rewrite H1. exact H2.
Qed.

Lemma items_eqb_cons (key1 key2 : string) (lo1 hi1 lo2 hi2 : cell)
    (d1 d2 : list (string * (cell * cell))) :
  items_eqb ((key1, (lo1, hi1)) :: d1) ((key2, (lo2, hi2)) :: d2) = true ↔
  key1 = key2 ∧ cell_eqb lo1 lo2 = true ∧ cell_eqb hi1 hi2 = true ∧
  items_eqb d1 d2 = true.
Proof.
  cbn [items_eqb]. rewrite !andb_true_iff, String.eqb_eq. tauto.
Qed.

Lemma items_eqb_refl (d : list (string * (cell * cell))) : items_eqb d d = true.
Proof.
  induction d as [|[key [lo hi]] d IH]; [reflexivity|].
  apply items_eqb_cons. auto using cell_eqb_refl.
Qed.

Lemma items_eqb_sym (d1 d2 : list (string * (cell * cell))) :
  items_eqb d1 d2 = true → items_eqb d2 d1 = true.
Proof.
  revert d2. induction d1 as [|[key1 [lo1 hi1]] d1 IH];
    intros [|[key2 [lo2 hi2]] d2]; try discriminate; [reflexivity|].
  rewrite !items_eqb_cons. intros (-> & Hlo & Hhi & Hd).
  auto using cell_eqb_sym.
Qed.

Lemma items_eqb_trans (d1 d2 d3 : list (string * (cell * cell))) :
  items_eqb d1 d2 = true → items_eqb d2 d3 = true → items_eqb d1 d3 = true.
Proof.
  revert d2 d3. induction d1 as [|[key1 [lo1 hi1]] d1 IH];
    intros [|[key2 [lo2 hi2]] d2] [|[key3 [lo3 hi3]] d3];
    try discriminate; [reflexivity|].
  rewrite !items_eqb_cons.
  intros (-> & Hlo & Hhi & Hd) (-> & Hlo' & Hhi' & Hd').
  repeat split; eauto using cell_eqb_trans.
Qed.

Lemma key_eqb_true (k1 k2 : cache_key) :
  key_eqb k1 k2 = true ↔ items_eqb (fst k1) (fst k2) = true ∧ snd k1 = snd k2.
Proof. unfold key_eqb. rewrite andb_true_iff, bool_decide_eq_true. tauto. Qed.

Lemma key_eqb_refl (k : cache_key) : key_eqb k k = true.
Proof. apply key_eqb_true. auto using items_eqb_refl. Qed.

Lemma key_eqb_sym (k1 k2 : cache_key) : key_eqb k1 k2 = true → key_eqb k2 k1 = true.
Proof. rewrite !key_eqb_true. intros [H1 H2]. auto using items_eqb_sym. Qed.

Lemma key_eqb_trans (k1 k2 k3 : cache_key) :
  key_eqb k1 k2 = true → key_eqb k2 k3 = true → key_eqb k1 k3 = true.
Proof.
  rewrite !key_eqb_true. intros [H1 H2] [H3 H4].
  split; [eauto using items_eqb_trans|congruence].
Qed.

(** Keys that compare equal find the same frame. *)
Lemma cache_lookup_key_eqb (k1 k2 : cache_key) (c : cache) :
  key_eqb k1 k2 = true → cache_lookup k1 c = cache_lookup k2 c.
Proof.
  intros H. induction c as [|[k frame] c IH]; [reflexivity|].
  cbn [cache_lookup]. rewrite IH.
  destruct (key_eqb k k1) eqn:E1, (key_eqb k k2) eqn:E2; try reflexivity.
  - rewrite (key_eqb_trans _ _ _ E1 H) in E2. discriminate.
  - rewrite (key_eqb_trans _ _ _ E2 (key_eqb_sym _ _ H)) in E1. discriminate.
Qed.

(** A frame found in the cache is one of its entries, under a key that
    compares equal. *)
Lemma cache_lookup_Some (k : cache_key) (c : cache) (frame : DataFrame) :
  cache_lookup k c = Some frame →
  ∃ k', (k', frame) ∈ c ∧ key_eqb k' k = true.
Proof.
  induction c as [|[k' frame'] c IH]; [discriminate|].
  cbn [cache_lookup]. destruct (key_eqb k' k) eqn:E.
  - intros [= ->]. exists k'. split; [apply list_elem_of_here|exact E].
  - intros H. destruct (IH H) as (k0 & Hin & Hk0).
    exists k0. split; [apply list_elem_of_further, Hin|exact Hk0].
Qed.

(** A call leaves the frames already kept where they are. *)
Lemma filter_dataframe_cached_keeps (c : cache) (_df : DataFrame)
    (filters : list (string * (cell * cell)))
    (selected_names : optional (option (list string))) (k : cache_key)
    (frame : DataFrame) :
  cache_lookup k c = Some frame →
  cache_lookup k (snd (filter_dataframe_cached c _df filters selected_names)) =
    Some frame.
Proof.
  intros Hk. unfold filter_dataframe_cached.
  destruct (cache_lookup (filters, selected_names) c) eqn:E; [exact Hk|].
  cbn [snd cache_lookup].
  destruct (key_eqb (filters, selected_names) k) eqn:Ek; [|exact Hk].
  rewrite (cache_lookup_key_eqb _ _ c Ek) in E. congruence.
Qed.

Lemma calls_cached_keeps (calls : list (DataFrame * cache_key)) (c : cache)
    (k : cache_key) (frame : DataFrame) :
  cache_lookup k c = Some frame →
  cache_lookup k (snd (calls_cached c calls)) = Some frame.
Proof.
  revert c. induction calls as [|[_df [filters selected_names]] calls IH];
    intros c Hk; [exact Hk|].
  cbn [calls_cached].
  pose proof (filter_dataframe_cached_keeps c _df filters selected_names
                k frame Hk) as Hk'.
  destruct (filter_dataframe_cached c _df filters selected_names) as [fr c1].
  specialize (IH c1 Hk').
  destruct (calls_cached c1 calls) as [frames c2]. exact IH.
Qed.

(** After a call its key is in the cache, with the frame it returned. *)
Lemma filter_dataframe_cached_kept (c : cache) (_df : DataFrame)
    (filters : list (string * (cell * cell)))
    (selected_names : optional (option (list string))) :
  cache_lookup (filters, selected_names)
    (snd (filter_dataframe_cached c _df filters selected_names)) =
  Some (fst (filter_dataframe_cached c _df filters selected_names)).
Proof.
  unfold filter_dataframe_cached.
  destruct (cache_lookup (filters, selected_names) c) eqn:E; [exact E|].
  cbn [fst snd cache_lookup]. rewrite key_eqb_refl. reflexivity.
Qed.

(** X2.  The memoised filter tells its calls apart by the rules and the
    names alone.  Once it has been called with rules and names it had not
    seen, on a dataset [df], every later call with these rules and names
    returns the filter of [df], whatever dataset it is given and whatever
    calls were made in between. *)
Theorem filter_dataframe_cached_first_dataset (c : cache) (df df' : DataFrame)
    (filters : list (string * (cell * cell)))
    (names : optional (option (list string)))
    (calls : list (DataFrame * cache_key)) :
  cache_lookup (filters, names) c = None →
  fst (filter_dataframe_cached
         (snd (calls_cached (snd (filter_dataframe_cached c df filters names))
                            calls))
         df' filters names) =
  filter_dataframe df (list_to_map filters) (names_of names).
Proof.
  intros Hnew.
  pose proof (filter_dataframe_cached_kept c df filters names) as Hkept.
  apply (calls_cached_keeps calls) in Hkept.
  unfold filter_dataframe_cached at 1. rewrite Hkept. cbn [fst].
  unfold filter_dataframe_cached. rewrite Hnew. reflexivity.
Qed.

(** The theorem on the sample dataset: the rule on the bandgap is first
    used on the sample, then on a dataset of zinc oxide alone, then on
    the empty dataset, which still gets TiO2. *)
Lemma filter_dataframe_cached_first_dataset_sample :
  cache_lookup ([("Bandgap", (Num 3, Num (32 # 10)))], Omitted) [] = None ∧
  fst (filter_dataframe_cached
         (snd (calls_cached
                 (snd (filter_dataframe_cached [] sample_df
                         [("Bandgap", (Num 3, Num (32 # 10)))] Omitted))
                 [([zno_row],
                   ([("Bandgap", (Num 3, Num (32 # 10)))], Omitted))]))
         [] [("Bandgap", (Num 3, Num (32 # 10)))] Omitted) =
  filter_dataframe sample_df
    (list_to_map [("Bandgap", (Num 3, Num (32 # 10)))]) None ∧
  filter_dataframe sample_df
    (list_to_map [("Bandgap", (Num 3, Num (32 # 10)))]) None = [tio2_row] ∧
  filter_dataframe []
    (list_to_map [("Bandgap", (Num 3, Num (32 # 10)))]) None = [].
Proof.
  split; [reflexivity|].
  split; [|split; vm_compute; reflexivity].
  exact (filter_dataframe_cached_first_dataset [] sample_df []
           [("Bandgap", (Num 3, Num (32 # 10)))] Omitted
           [([zno_row], ([("Bandgap", (Num 3, Num (32 # 10)))], Omitted))]
           eq_refl).
Defined.


(** Two rules with the same bounds. *)
Lemma in_range_cell_eqb (x lo1 hi1 lo2 hi2 : cell) :
  cell_eqb lo1 lo2 = true → cell_eqb hi1 hi2 = true →
  in_range x (Some (lo1, hi1)) ↔ in_range x (Some (lo2, hi2)).
Proof.
  destruct x as [|q]; [reflexivity|].
  destruct lo1 as [|a1], lo2 as [|a2]; try discriminate;
    destruct hi1 as [|b1], hi2 as [|b2]; try discriminate; try reflexivity.
  simpl. rewrite !Qeq_bool_iff. intros Ha Hb. rewrite Ha, Hb. reflexivity.
Qed.

(** Dictionaries with the same items have the same rules. *)
Lemma items_eqb_lookup (d1 d2 : list (string * (cell * cell))) (key : string) :
  items_eqb d1 d2 = true →
  option_Forall2
    (λ r1 r2, cell_eqb (fst r1) (fst r2) = true ∧
              cell_eqb (snd r1) (snd r2) = true)
    ((list_to_map d1 : gmap string (cell * cell)) !! key)
    ((list_to_map d2 : gmap string (cell * cell)) !! key).
Proof.
  revert d2. induction d1 as [|[key1 [lo1 hi1]] d1 IH];
    intros [|[key2 [lo2 hi2]] d2]; try discriminate.
  - intros _. rewrite list_to_map_nil, lookup_empty. constructor.
  - rewrite items_eqb_cons. intros (<- & Hlo & Hhi & Hd).
    rewrite !list_to_map_cons.
    destruct (decide (key1 = key)) as [->|Hne].
    + rewrite !lookup_insert_eq. constructor. split; assumption.
    + rewrite !lookup_insert_ne by exact Hne. apply IH, Hd.
Qed.

Lemma in_range_items_eqb (d1 d2 : list (string * (cell * cell))) (key : string)
    (x : cell) :
  items_eqb d1 d2 = true →
  in_range x ((list_to_map d1 : gmap string (cell * cell)) !! key) ↔
  in_range x ((list_to_map d2 : gmap string (cell * cell)) !! key).
Proof.
  intros H. destruct (items_eqb_lookup d1 d2 key H) as [[lo1 hi1] [lo2 hi2] [Hlo Hhi]|];
    [|reflexivity].
  apply in_range_cell_eqb; assumption.
Qed.

(** Keys that compare equal give the same frame on the same dataset. *)
Lemma uncached_key_eqb (df : DataFrame) (k1 k2 : cache_key) :
  key_eqb k1 k2 = true → uncached (df, k1) = uncached (df, k2).
Proof.
  rewrite key_eqb_true. destruct k1 as [d1 n1], k2 as [d2 n2].
  cbn [fst snd]. intros [Hd <-]. unfold uncached. cbn [fst snd].
  rewrite !filter_dataframe_filter. apply list_filter_iff.
  intros r. unfold admitted.
  rewrite !(in_range_items_eqb d1 d2 _ _ Hd). reflexivity.
Qed.

Lemma dataset_of_key_eqb (df df1 : DataFrame) (k1 k2 : cache_key) :
  key_eqb k1 k2 = true → dataset_of df df1 k1 = dataset_of df df1 k2.
Proof.
  rewrite key_eqb_true. intros [Hd _]. unfold dataset_of.
  destruct (items_eqb_lookup (fst k1) (fst k2)
              "CO2 footprint max (kg/kg)" Hd); reflexivity.
Qed.

(** Each page calls the filter on the dataset of its key: the dictionary
    of the Bandgap Analysis page has a rule on the CO2 footprint, that of
    the session never has. *)
Lemma page_call_dataset (df df1 : DataFrame) (call : DataFrame * cache_key) :
  page_call df df1 call → fst call = dataset_of df df1 (snd call).
Proof.
  intros [esg_range toxicity_range co2_range selected_names|evs items Hitems].
  - reflexivity.
  - cbn [fst snd]. unfold dataset_of. cbn [fst].
    destruct (list_to_map items !! "CO2 footprint max (kg/kg)")
      as [range|] eqn:E; [|reflexivity].
    exfalso. pose proof (run_session_invariant evs) as Hinv.
    unfold session_invariant in Hinv. rewrite Hitems in Hinv.
    destruct Hinv as [Hgood _].
    destruct (Hgood _ _ E) as [Hkey _]. exact (co2_not_a_session_key Hkey).
Qed.

(** A call of a page on a sound cache returns what the body computes on
    the dataset of the page, and leaves the cache sound. *)
Lemma filter_dataframe_cached_sound (df df1 : DataFrame) (c : cache)
    (_df : DataFrame) (filters : list (string * (cell * cell)))
    (selected_names : optional (option (list string))) :
  cache_sound df df1 c →
  page_call df df1 (_df, (filters, selected_names)) →
  fst (filter_dataframe_cached c _df filters selected_names) =
    uncached (_df, (filters, selected_names)) ∧
  cache_sound df df1 (snd (filter_dataframe_cached c _df filters selected_names)).
Proof.
  intros Hc Hcall. apply page_call_dataset in Hcall. cbn [fst snd] in Hcall.
  unfold filter_dataframe_cached.
  destruct (cache_lookup (filters, selected_names) c) as [frame|] eqn:E;
    cbn [fst snd].
  - split; [|exact Hc].
    apply cache_lookup_Some in E as (k' & Hin & Hk').
    rewrite (Hc _ _ Hin), (dataset_of_key_eqb df df1 _ _ Hk'), <- Hcall.
    apply uncached_key_eqb, Hk'.
  - split; [reflexivity|].
    intros k frame Hin. apply elem_of_cons in Hin as [[= -> ->]|Hin].
    + rewrite <- Hcall. reflexivity.
    + apply Hc, Hin.
Qed.

(** X17.  In the dashboard the memoised filter is never out of date:
    whatever calls the three pages make, in whatever order and from
    whatever sessions, each call returns what the body of
    [filter_dataframe] computes on the dataset of its own page.  The
    dictionary of the Bandgap Analysis page always has a rule on the CO2
    footprint and that of the session never has, so the two datasets never
    share a key. *)
Theorem calls_cached_pages (df df1 : DataFrame) (c : cache)
    (calls : list (DataFrame * cache_key)) :
  cache_sound df df1 c → Forall (page_call df df1) calls →
  fst (calls_cached c calls) = map uncached calls ∧
  cache_sound df df1 (snd (calls_cached c calls)).
Proof.
  revert c. induction calls as [|[_df [filters selected_names]] calls IH];
    intros c Hc Hcalls.
  - split; [reflexivity|exact Hc].
  - apply Forall_cons in Hcalls as [Hcall Hcalls]. cbn [calls_cached map].
    destruct (filter_dataframe_cached_sound df df1 c _df filters
                selected_names Hc Hcall) as [Hframe Hc1].
    destruct (filter_dataframe_cached c _df filters selected_names)
      as [frame c1]. cbn [fst snd] in Hframe, Hc1.
    destruct (IH c1 Hc1 Hcalls) as [Hframes Hc2].
    destruct (calls_cached c1 calls) as [frames c2].
    cbn [fst snd] in *. split; [|exact Hc2].
    rewrite Hframe, Hframes. reflexivity.
Qed.

(** Nothing is kept before the first call. *)
Lemma cache_sound_nil (df df1 : DataFrame) : cache_sound df df1 [].
Proof. intros k frame Hin. inversion Hin. Qed.

Lemma sample_calls_pages : Forall (page_call sample_df [zno_row]) sample_calls.
Proof.
  unfold sample_calls. repeat apply Forall_cons_2; [| | |apply Forall_nil_2].
  - exact (bandgap_page_call sample_df [zno_row] (0, 35 # 10)%Q (0, 3)%Q
             (0, 5000)%Q ["TiO2"; "ZnO"]).
  - apply (session_page_call sample_df [zno_row] sample_runs sample_items).
    vm_compute. reflexivity.
  - exact (bandgap_page_call sample_df [zno_row] (0, 35 # 10)%Q (0, 3)%Q
             (0, 5000)%Q ["TiO2"; "ZnO"]).
Qed.

(** The theorem on the sample calls. *)
Lemma calls_cached_pages_sample :
  cache_sound sample_df [zno_row] [] ∧
  Forall (page_call sample_df [zno_row]) sample_calls ∧
  fst (calls_cached [] sample_calls) = map uncached sample_calls ∧
  cache_sound sample_df [zno_row] (snd (calls_cached [] sample_calls)).
Proof.
  split; [apply cache_sound_nil|]. split; [exact sample_calls_pages|].
  exact (calls_cached_pages sample_df [zno_row] [] sample_calls
           (cache_sound_nil _ _) sample_calls_pages).
Defined.

(** ** Results, ranked and exported *)

Lemma build_results_columns (filtered_df : labelled row) (values : list R)
    (ranks : list nat) (rows : labelled result_row) :
  build_results filtered_df values ranks = Some rows →
  length values = length filtered_df ∧ length ranks = length filtered_df ∧
  map fst rows = map fst filtered_df ∧
  map (λ lr, (fst lr, Value (snd lr))) rows = zip (map fst filtered_df) values ∧
  map (λ lr, (fst lr, Rank (snd lr))) rows = zip (map fst filtered_df) ranks ∧
  map (λ lr, Material (snd lr)) rows = map (λ lr, Name (snd lr)) filtered_df.
Proof.
  unfold build_results.
  destruct (Nat.eqb_spec (length values) (length filtered_df)) as [Hv|];
    [|discriminate].
  destruct (Nat.eqb_spec (length ranks) (length filtered_df)) as [Hk|];
    [|discriminate].
  simpl. intros H. apply (inj Some) in H. subst rows.
  split; [exact Hv|]. split; [exact Hk|].
  revert values ranks Hv Hk.
  induction filtered_df as [|[l a] df IH]; intros [|v vs] [|k ks] Hv Hk;
    try discriminate; [repeat split|].
  simpl in Hv, Hk. injection Hv as Hv. injection Hk as Hk.
  destruct (IH vs ks Hv Hk) as (H1 & H2 & H3 & H4).
  simpl. rewrite H1, H2, H3, H4. repeat split.
Qed.

Lemma series_zip_lookup {V : Type} (labels : list nat) (values : list V) :
  NoDup labels → length values = length labels →
  map (λ l, (list_to_map (zip labels values) : gmap nat V) !! l) labels =
  map Some values.
Proof.
  intros Hnd. revert values.
  induction Hnd as [|l labels Hl Hnd IH]; intros [|v vs] Hlen;
    try discriminate; [reflexivity|].
  simpl in *. rewrite lookup_insert_eq. f_equal.
  rewrite <- (IH vs) by congruence.
  apply map_ext_in. intros l' Hl'.
  apply lookup_insert_ne. intros ->. apply Hl, list_elem_of_In, Hl'.
Qed.

Lemma series_of_sorted {V : Type} (f : result_row → V)
    (rows : labelled result_row) :
  NoDup (map fst rows) →
  series_of f (sort_values_rank rows) = series_of f rows.
Proof.
  intros Hnd. unfold series_of, sort_values_rank.
  apply list_to_map_proper.
  - rewrite <- list_fmap_compose.
    assert (Hp : (fst ∘ (λ lr : nat * result_row, (fst lr, f (snd lr))))
                 <$> merge_sort rank_le rows ≡ₚ map fst rows).
    { change ((fst ∘ (λ lr : nat * result_row, (fst lr, f (snd lr))))
              <$> merge_sort rank_le rows)
        with (fst <$> merge_sort rank_le rows).
      apply fmap_Permutation, merge_sort_Permutation. }
    rewrite Hp. exact Hnd.
  - apply fmap_Permutation, merge_sort_Permutation.
Qed.

Lemma map_triple {A B C D : Type} (f : A → B) (g : A → C) (h : A → D)
    (l : list A) :
  map (λ x, (f x, g x, h x)) l = zip (zip (map f l) (map g l)) (map h l).
Proof. induction l as [|a l IH]; simpl; [reflexivity|rewrite IH; reflexivity]. Qed.

(** X9.  In the "Full Data" sheet every material carries its own score
    and its own rank: although the results were sorted by rank, the two
    columns are set by index label and come out in the order of the
    filtered dataset. *)
Theorem create_full_output_aligned (column : value_column)
    (filtered_df : labelled row) (values : list R) (ranks : list nat)
    (results : results_frame) (weights_df : list (string * R * string))
    (filters : gmap string (cell * cell)) :
  NoDup (map fst filtered_df) →
  main_results column filtered_df values ranks = Some results →
  Full_Data (create_full_output filtered_df results weights_df filters) =
  zip (zip (map snd filtered_df) (map Some values)) (map Some ranks).
Proof.
  intros Hnd Hres. unfold main_results in Hres.
  destruct (build_results filtered_df values ranks) as [rows|] eqn:Hrows;
    [|discriminate].
  apply (inj Some) in Hres. subst results.
  destruct (build_results_columns _ _ _ _ Hrows)
    as (Hv & Hk & Hlabels & Hvalues & Hranks & _).
  unfold create_full_output. cbn [Full_Data result_rows].
  rewrite !series_of_sorted by (rewrite Hlabels; exact Hnd).
  unfold series_of. rewrite Hvalues, Hranks.
  rewrite (map_triple snd). f_equal; [f_equal|].
  - rewrite <- (series_zip_lookup (map fst filtered_df) values)
      by (rewrite ?length_map; assumption).
    rewrite map_map. reflexivity.
  - rewrite <- (series_zip_lookup (map fst filtered_df) ranks)
      by (rewrite ?length_map; assumption).
    rewrite map_map. reflexivity.
Qed.

(** The results of the labelled sample, for the scores 2/5 and 7/10. *)
Lemma main_results_sample :
  main_results Score sample_filtered [2 / 5; 7 / 10] [2; 1]%nat =
  Some (mkResults Score [(2%nat, mkResult "ZnO" (7 / 10) 1);
                         (1%nat, mkResult "TiO2" (2 / 5) 2)]).
Proof. reflexivity. Qed.

(** The theorem on the labelled sample. *)
Lemma create_full_output_aligned_sample :
  NoDup (map fst sample_filtered) ∧
  main_results Score sample_filtered [2 / 5; 7 / 10] [2; 1]%nat =
    Some (mkResults Score [(2%nat, mkResult "ZnO" (7 / 10) 1);
                           (1%nat, mkResult "TiO2" (2 / 5) 2)]) ∧
  Full_Data (create_full_output sample_filtered
               (mkResults Score [(2%nat, mkResult "ZnO" (7 / 10) 1);
                                 (1%nat, mkResult "TiO2" (2 / 5) 2)])
               [] ∅) =
  [(tio2_row, Some (2 / 5), Some 2%nat); (zno_row, Some (7 / 10), Some 1%nat)].
Proof.
  assert (Hnd : NoDup (map fst sample_filtered)).
  { simpl. repeat constructor; rewrite ?elem_of_cons, ?elem_of_nil; intuition lia. }
  split; [exact Hnd|]. split; [exact main_results_sample|].
  exact (create_full_output_aligned Score sample_filtered [2 / 5; 7 / 10]
           [2; 1]%nat _ [] ∅ Hnd main_results_sample).
Defined.

Global Instance rank_le_total : Total rank_le.
Proof. intros a b. unfold rank_le. lia. Qed.

Global Instance rank_le_trans : Transitive rank_le.
Proof. intros a b c. unfold rank_le. lia. Qed.

(** X10.  The results list every material of the filtered dataset once,
    and "Top Materials" shows the first three of them (all of them when
    there are fewer), none of which is ranked behind a material that is
    not shown. *)
Theorem top_materials_best (column : value_column)
    (filtered_df : labelled row) (values : list R) (ranks : list nat)
    (results : results_frame) :
  main_results column filtered_df values ranks = Some results →
  map (λ lr, Material (snd lr)) (result_rows results) ≡ₚ
    map (λ lr, Name (snd lr)) filtered_df ∧
  length (top_materials results) = min 3 (length filtered_df) ∧
  ∀ shown other,
    shown ∈ top_materials results →
    other ∈ drop 3 (map snd (result_rows results)) →
    (Rank shown ≤ Rank other)%nat.
Proof.
  intros Hres. unfold main_results in Hres.
  destruct (build_results filtered_df values ranks) as [rows|] eqn:Hrows;
    [|discriminate].
  apply (inj Some) in Hres. subst results.
  destruct (build_results_columns _ _ _ _ Hrows)
    as (_ & _ & Hlabels & _ & _ & Hnames).
  assert (Hperm : sort_values_rank rows ≡ₚ rows)
    by apply merge_sort_Permutation.
  assert (Hlen : length (sort_values_rank rows) = length filtered_df).
  { rewrite Hperm. rewrite <- (length_map fst rows), Hlabels.
    apply length_map. }
  unfold top_materials. cbn [result_rows]. split; [|split].
  - rewrite <- Hnames. apply fmap_Permutation, Hperm.
  - rewrite length_take, length_map, Hlen. lia.
  - intros shown other Hshown Hother.
    pose proof (StronglySorted_merge_sort rank_le rows) as Hsorted.
    fold (sort_values_rank rows) in Hsorted.
    rewrite <- (take_drop 3 (sort_values_rank rows)) in Hsorted.
    assert (Htake : take (min 3 (length (sort_values_rank rows)))
                      (map snd (sort_values_rank rows)) =
                    map snd (take 3 (sort_values_rank rows))).
    { rewrite fmap_take.
      destruct (Nat.le_gt_cases (length (sort_values_rank rows)) 3) as [Hle|Hgt].
      - rewrite Nat.min_r by exact Hle.
        rewrite !take_ge by (rewrite ?length_map; lia). reflexivity.
      - rewrite Nat.min_l by lia. reflexivity. }
    rewrite Htake in Hshown.
    change (map snd (sort_values_rank rows))
      with (snd <$> sort_values_rank rows) in Hother.
    rewrite <- fmap_drop in Hother.
    apply list_elem_of_fmap in Hshown as (a & -> & Ha).
    apply list_elem_of_fmap in Hother as (b & -> & Hb).
    exact (StronglySorted_app_1_elem_of _ _ _ _ _ Hsorted Ha Hb).
Qed.

(** The theorem on the labelled sample. *)
Lemma top_materials_best_sample :
  main_results Score sample_filtered [2 / 5; 7 / 10] [2; 1]%nat =
    Some (mkResults Score [(2%nat, mkResult "ZnO" (7 / 10) 1);
                           (1%nat, mkResult "TiO2" (2 / 5) 2)]) ∧
  length (top_materials
            (mkResults Score [(2%nat, mkResult "ZnO" (7 / 10) 1);
                              (1%nat, mkResult "TiO2" (2 / 5) 2)])) =
    min 3 (length sample_filtered).
Proof.
  split; [exact main_results_sample|].
  exact (proj1 (proj2 (top_materials_best Score sample_filtered
                         [2 / 5; 7 / 10] [2; 1]%nat _ main_results_sample))).
Defined.

(** The theorem on the sample dataset: the Production slider is set
    between 0 and 100, and TiO2, of production 9000, is a candidate. *)
Lemma mcdm_filtered_sample :
  mcdm_filtered sample_df (run sample_runs) = Some [tio2_row] ∧
  ∃ (filters : gmap string (cell * cell)) (b e t : Q * Q),
    session_filters (run sample_runs) = Some filters ∧
    filters !! "Bandgap" = Some (rule b) ∧
    filters !! "ESG Score" = Some (rule e) ∧
    filters !! "Toxicity" = Some (rule t) ∧
    filters !! "CO2 footprint max (kg/kg)" = None ∧
    ∀ r,
      r ∈ [tio2_row] ↔
      r ∈ sample_df ∧ present (CO2_footprint_max r) ∧
      in_range (Bandgap r) (Some (rule b)) ∧
      in_range (ESG_Score r) (Some (rule e)) ∧
      in_range (Toxicity r) (Some (rule t)).
Proof.
  assert (H : mcdm_filtered sample_df (run sample_runs) = Some [tio2_row])
    by (vm_compute; reflexivity).
  split; [exact H|].
  exact (mcdm_filtered_exactly sample_df sample_runs [tio2_row] H).
Defined.

(** ** Plot data *)

Lemma ln_10_pos : 0 < ln 10.
Proof. rewrite <- ln_1. apply ln_increasing; lra. Qed.

Lemma plot_floor_pos : 0 < plot_floor.
Proof. unfold plot_floor. apply Rinv_0_lt_compat, pow_lt. lra. Qed.

Lemma log10_plot_floor : log10 plot_floor = -10.
Proof.
  unfold log10, plot_floor.
  rewrite ln_Rinv by (apply pow_lt; lra).
  rewrite ln_pow by lra.
  replace (INR 10) with 10 by (simpl; lra).
  pose proof ln_10_pos. field. lra.
Qed.

Lemma log10_le (x y : R) : 0 < x → x <= y → log10 x <= log10 y.
Proof.
  intros Hx [Hlt| ->]; [|apply Rle_refl].
  unfold log10. pose proof ln_10_pos as H10.
  apply Rmult_le_compat_r; [apply Rlt_le, Rinv_0_lt_compat, H10|].
  apply Rlt_le, ln_increasing; assumption.
Qed.

(** The logarithm of a clipped value. *)
Lemma log10_clip (x : R) : log10 (Rmax plot_floor x) = log_or_floor x.
Proof.
  unfold log_or_floor, Rmax.
  destruct (Rle_dec plot_floor x) as [Hle|Hgt], (Rlt_dec x plot_floor) as [Hlt|Hge];
    try reflexivity; try lra.
  apply log10_plot_floor.
Qed.

Lemma log_or_floor_ge (x : R) : -10 <= log_or_floor x.
Proof.
  rewrite <- log10_clip, <- log10_plot_floor.
  apply log10_le; [apply plot_floor_pos|apply Rmax_l].
Qed.

Lemma np_log10_clip (s : list (option R)) :
  np_log10 (clip plot_floor s) = map (option_map log_or_floor) s.
Proof.
  unfold np_log10, clip. rewrite map_map. apply map_ext.
  intros [x|]; simpl; [rewrite log10_clip|]; reflexivity.
Qed.

Lemma update_column_lookup (f : list (option R) → list (option R))
    (col : string) (df out : frame) (c : string) :
  update_column f col df = Some out →
  out !! c = if decide (col = c) then f <$> df !! col else df !! c.
Proof.
  unfold update_column. destruct (df !! col) as [s|] eqn:E; [|discriminate].
  intros H. apply (inj Some) in H. subst out.
  rewrite lookup_insert. destruct (decide (col = c)); reflexivity.
Qed.

(** A column on a logarithmic axis holds values of [f]; the others are
    those of the frame. *)
Lemma transform_columns_lookup (f : list (option R) → list (option R))
    (df out : frame) (x_col y_col : string) (log_x log_y : bool) (c : string) :
  transform_columns f df x_col y_col log_x log_y = Some out →
  (on_log_axis c x_col y_col log_x log_y →
   ∀ s, out !! c = Some s → ∃ s0, s = f s0) ∧
  (¬ on_log_axis c x_col y_col log_x log_y → out !! c = df !! c).
Proof.
  unfold transform_columns, on_log_axis.
  destruct log_x, log_y.
  - destruct (update_column f x_col df) as [df1|] eqn:E1; [|discriminate].
    intros E2.
    rewrite (update_column_lookup _ _ _ _ c E2).
    rewrite (update_column_lookup _ _ _ _ c E1).
    rewrite (update_column_lookup _ _ _ _ y_col E1).
    destruct (decide (y_col = c)) as [->|Hy].
    + split; [|intros H; exfalso; apply H; right; split; reflexivity].
      intros _ s Hs. destruct (decide (x_col = c)) as [?|?];
        match type of Hs with
        | _ <$> ?o = Some _ => destruct o; simpl in Hs; [|discriminate]
        end; apply (inj Some) in Hs; eauto.
    + destruct (decide (x_col = c)) as [->|Hx].
      * split; [|intros H; exfalso; apply H; left; split; reflexivity].
        intros _ s Hs. destruct (df !! c); simpl in Hs; [|discriminate].
        apply (inj Some) in Hs. eauto.
      * split; [|reflexivity].
        intros [[-> _]|[-> _]]; congruence.
  - destruct (update_column f x_col df) as [df1|] eqn:E1; [|discriminate].
    intros H. apply (inj Some) in H. subst df1.
    rewrite (update_column_lookup _ _ _ _ c E1).
    destruct (decide (x_col = c)) as [->|Hx]; split;
      try (intros H; exfalso; intuition congruence); try tauto.
    intros _ s Hs. destruct (df !! c); simpl in Hs; [|discriminate].
    apply (inj Some) in Hs. eauto.
  - intros E1. rewrite (update_column_lookup _ _ _ _ c E1).
    destruct (decide (y_col = c)) as [->|Hy]; split;
      try (intros H; exfalso; intuition congruence); try tauto.
    intros _ s Hs. destruct (df !! c); simpl in Hs; [|discriminate].
    apply (inj Some) in Hs. eauto.
  - intros H. apply (inj Some) in H. subst out.
    split; [intros [[_ H]|[_ H]]; discriminate|reflexivity].
Qed.

Lemma transform_columns_None (f : list (option R) → list (option R))
    (df : frame) (x_col y_col : string) (log_x log_y : bool) :
  transform_columns f df x_col y_col log_x log_y = None ↔
  (log_x = true ∧ df !! x_col = None) ∨ (log_y = true ∧ df !! y_col = None).
Proof.
  unfold transform_columns, update_column.
  destruct log_x, log_y.
  - destruct (df !! x_col) as [sx|] eqn:Ex.
    + destruct (decide (x_col = y_col)) as [<-|Hne].
      * rewrite lookup_insert_eq, Ex. intuition congruence.
      * rewrite lookup_insert_ne by exact Hne.
        destruct (df !! y_col); intuition congruence.
    + intuition congruence.
  - destruct (df !! x_col); intuition congruence.
  - destruct (df !! y_col); intuition congruence.
  - intuition congruence.
Qed.

(** X11.  [prepare_plot_data] fails, with the [KeyError] of pandas,
    exactly when a column asked on a logarithmic scale is not a column of
    the frame; without a logarithmic scale nothing is looked up and
    nothing fails. *)
Theorem prepare_plot_data_key_error (df : frame) (x_col y_col : string)
    (log_x log_y : bool) :
  prepare_plot_data df x_col y_col log_x log_y = None ↔
  (log_x = true ∧ df !! x_col = None) ∨ (log_y = true ∧ df !! y_col = None).
Proof. apply transform_columns_None. Qed.

Lemma all_present_log_or_floor (s : list (option R)) :
  all_present (λ r, -10 <= r) (map (option_map log_or_floor) s).
Proof.
  unfold all_present. apply Forall_forall. intros v Hv r ->.
  apply list_elem_of_fmap in Hv as ([x|] & Hx & _); [|discriminate].
  injection Hx as ->. apply log_or_floor_ge.
Qed.

(** X12.  In the frame [prepare_plot_data] returns, every value of a
    column on a logarithmic scale is at least -10 (a zero or a negative
    value gives -10, not an infinity), and every other column is the
    column of the input. *)
Theorem prepare_plot_data_columns (df out : frame) (x_col y_col : string)
    (log_x log_y : bool) (col : string) :
  prepare_plot_data df x_col y_col log_x log_y = Some out →
  (on_log_axis col x_col y_col log_x log_y →
   ∀ s, out !! col = Some s → all_present (λ r, -10 <= r) s) ∧
  (¬ on_log_axis col x_col y_col log_x log_y → out !! col = df !! col).
Proof.
  intros Hout.
  destruct (transform_columns_lookup _ _ _ _ _ _ _ col Hout) as [Hlog Hother].
  split; [|exact Hother].
  intros Hcol s Hs. destruct (Hlog Hcol s Hs) as [s0 ->].
  rewrite np_log10_clip. apply all_present_log_or_floor.
Qed.

(** X13.  With two different columns, both on a logarithmic scale,
    [prepare_plot_data] replaces each value of the two columns by its
    decimal logarithm when it is 1e-10 or more and by -10 when it is
    less, and leaves missing values missing. *)
Theorem prepare_plot_data_two_columns (df : frame) (x_col y_col : string)
    (sx sy : list (option R)) :
  x_col ≠ y_col → df !! x_col = Some sx → df !! y_col = Some sy →
  prepare_plot_data df x_col y_col true true =
  Some (<[y_col := map (option_map log_or_floor) sy]>
          (<[x_col := map (option_map log_or_floor) sx]> df)).
Proof.
  intros Hne Hx Hy. unfold prepare_plot_data, transform_columns, update_column.
  rewrite Hx, lookup_insert_ne, Hy by exact Hne.
  rewrite !np_log10_clip. reflexivity.
Qed.

(** X14.  With the same column on both axes and both scales logarithmic,
    [prepare_plot_data] takes the logarithm twice. *)
Theorem prepare_plot_data_same_column (df : frame) (col : string)
    (s : list (option R)) :
  df !! col = Some s →
  prepare_plot_data df col col true true =
  Some (<[col := map (option_map (λ r, log_or_floor (log_or_floor r))) s]> df).
Proof.
  intros Hs. unfold prepare_plot_data, transform_columns, update_column.
  rewrite Hs, lookup_insert_eq, insert_insert_eq.
  rewrite !np_log10_clip, map_map. do 2 f_equal.
  apply map_ext. intros [r|]; reflexivity.
Qed.

Lemma all_present_clip (s : list (option R)) :
  all_present (λ r, plot_floor <= r ∧ 0 < r) (clip plot_floor s).
Proof.
  unfold all_present, clip. apply Forall_forall. intros v Hv r ->.
  apply list_elem_of_fmap in Hv as ([x|] & Hx & _); [|discriminate].
  injection Hx as ->. pose proof plot_floor_pos.
  pose proof (Rmax_l plot_floor x). lra.
Qed.

(** X15.  In the data [create_professional_plot] plots, every value of a
    column on a logarithmic axis is at least 1e-10, hence positive, and
    every other column is the column of the input. *)
Theorem create_professional_plot_source_columns (df out : frame)
    (x_col y_col : string) (log_x log_y : bool) (col : string) :
  create_professional_plot_source df x_col y_col log_x log_y = Some out →
  (on_log_axis col x_col y_col log_x log_y →
   ∀ s, out !! col = Some s →
        all_present (λ r, plot_floor <= r ∧ 0 < r) s) ∧
  (¬ on_log_axis col x_col y_col log_x log_y → out !! col = df !! col).
Proof.
  intros Hout.
  destruct (transform_columns_lookup _ _ _ _ _ _ _ col Hout) as [Hlog Hother].
  split; [|exact Hother].
  intros Hcol s Hs. destruct (Hlog Hcol s Hs) as [s0 ->].
  apply all_present_clip.
Qed.

(** ** The plot data of a sample frame *)

Lemma sample_frame_Bandgap :
  sample_frame !! "Bandgap" = Some [Some 1; Some 0; None].
Proof. reflexivity. Qed.

Lemma sample_frame_Toxicity :
  sample_frame !! "Toxicity" = Some [Some 100; Some 10; Some 1].
Proof. reflexivity. Qed.

Lemma prepare_plot_data_sample :
  prepare_plot_data sample_frame "Bandgap" "Toxicity" true true =
  Some sample_frame_log.
Proof.
  unfold prepare_plot_data, transform_columns, update_column.
  rewrite sample_frame_Bandgap, lookup_insert_ne, sample_frame_Toxicity
    by discriminate.
  rewrite !np_log10_clip. reflexivity.
Qed.

Lemma create_professional_plot_source_sample :
  create_professional_plot_source sample_frame "Bandgap" "Toxicity" true false =
  Some sample_frame_clipped.
Proof.
  unfold create_professional_plot_source, transform_columns, update_column.
  rewrite sample_frame_Bandgap. reflexivity.
Qed.

(** The bound on the sample frame, for the bandgap. *)
Lemma prepare_plot_data_columns_sample :
  prepare_plot_data sample_frame "Bandgap" "Toxicity" true true =
    Some sample_frame_log ∧
  on_log_axis "Bandgap" "Bandgap" "Toxicity" true true ∧
  ∀ s, sample_frame_log !! "Bandgap" = Some s → all_present (λ r, -10 <= r) s.
Proof.
  assert (Hlog : on_log_axis "Bandgap" "Bandgap" "Toxicity" true true)
    by (left; split; reflexivity).
  split; [exact prepare_plot_data_sample|]. split; [exact Hlog|].
  exact (proj1 (prepare_plot_data_columns sample_frame sample_frame_log
                  "Bandgap" "Toxicity" true true "Bandgap"
                  prepare_plot_data_sample) Hlog).
Defined.

(** The two logarithmic columns of the sample frame. *)
Lemma prepare_plot_data_two_columns_sample :
  "Bandgap" ≠ "Toxicity" ∧
  sample_frame !! "Bandgap" = Some [Some 1; Some 0; None] ∧
  sample_frame !! "Toxicity" = Some [Some 100; Some 10; Some 1] ∧
  prepare_plot_data sample_frame "Bandgap" "Toxicity" true true =
    Some sample_frame_log.
Proof.
  assert (Hne : "Bandgap" ≠ "Toxicity") by discriminate.
  split; [exact Hne|]. split; [exact sample_frame_Bandgap|].
  split; [exact sample_frame_Toxicity|].
  exact (prepare_plot_data_two_columns sample_frame "Bandgap" "Toxicity" _ _
           Hne sample_frame_Bandgap sample_frame_Toxicity).
Defined.

(** The sample frame with the toxicity on both axes. *)
Lemma prepare_plot_data_same_column_sample :
  sample_frame !! "Toxicity" = Some [Some 100; Some 10; Some 1] ∧
  prepare_plot_data sample_frame "Toxicity" "Toxicity" true true =
  Some (<["Toxicity" :=
            map (option_map (λ r, log_or_floor (log_or_floor r)))
                [Some 100; Some 10; Some 1]]> sample_frame).
Proof.
  split; [exact sample_frame_Toxicity|].
  exact (prepare_plot_data_same_column sample_frame "Toxicity" _
           sample_frame_Toxicity).
Defined.

(** The plotted bandgap of the sample frame, on a logarithmic axis. *)
Lemma create_professional_plot_source_columns_sample :
  create_professional_plot_source sample_frame "Bandgap" "Toxicity" true false =
    Some sample_frame_clipped ∧
  on_log_axis "Bandgap" "Bandgap" "Toxicity" true false ∧
  ∀ s, sample_frame_clipped !! "Bandgap" = Some s →
       all_present (λ r, plot_floor <= r ∧ 0 < r) s.
Proof.
  assert (Hlog : on_log_axis "Bandgap" "Bandgap" "Toxicity" true false)
    by (left; split; reflexivity).
  split; [exact create_professional_plot_source_sample|]. split; [exact Hlog|].
  exact (proj1 (create_professional_plot_source_columns sample_frame
                  sample_frame_clipped "Bandgap" "Toxicity" true false
                  "Bandgap" create_professional_plot_source_sample) Hlog).
Defined.

(** ** The shading of the Bandgap Analysis plot *)

Lemma series_min_elem (s : list cell) (m : Q) :
  series_min s = Num m → Num m ∈ s.
Proof.
  induction s as [|c s IH]; [discriminate|].
  simpl. destruct c as [|x], (series_min s) as [|y] eqn:E; simpl.
  - discriminate.
  - intros H. right. apply IH, H.
  - intros <-. left.
  - destruct (Qle_bool x y); intros H.
    + rewrite <- H. left.
    + right. apply IH, H.
Qed.

Lemma Qscale_down (q : Q) : (0 <= q → q * (9 # 10) <= q)%Q.
Proof.
  intros Hq. rewrite <- (Qmult_1_r q) at 2.
  rewrite (Qmult_comm q (9 # 10)), (Qmult_comm q 1).
  apply Qmult_le_compat_r; [discriminate|exact Hq].
Qed.

Lemma Qscale_up (q : Q) : (0 <= q → q <= q * (11 # 10))%Q.
Proof.
  intros Hq. rewrite <- (Qmult_1_r q) at 1.
  rewrite (Qmult_comm q (11 # 10)), (Qmult_comm q 1).
  apply Qmult_le_compat_r; [discriminate|exact Hq].
Qed.

(** X16.  When the plotted column has no negative value, the shaded
    regions of the Bandgap Analysis plot reach from below every plotted
    value to above it. *)
Theorem shading_extent_covers (y : list cell) (q : Q) :
  (∀ x, Num x ∈ y → (0 <= x)%Q) → Num q ∈ y →
  ∃ y_min y_max,
    shading_extent y = (Num y_min, Num y_max) ∧
    (y_min <= q)%Q ∧ (q <= y_max)%Q.
Proof.
  intros Hpos Hq.
  destruct (series_min_le _ _ Hq) as (lo & Hlo & Hle).
  destruct (series_max_ge _ _ Hq) as (hi & Hhi & Hge).
  exists (lo * (9 # 10))%Q, (hi * (11 # 10))%Q.
  unfold shading_extent. rewrite Hlo, Hhi. split; [reflexivity|].
  assert (H0 : (0 <= lo)%Q) by (apply Hpos, series_min_elem, Hlo).
  assert (H1 : (0 <= hi)%Q)
    by (eapply Qle_trans; [apply (Hpos q Hq)|exact Hge]).
  split.
  - eapply Qle_trans; [apply Qscale_down, H0|exact Hle].
  - eapply Qle_trans; [exact Hge|apply Qscale_up, H1].
Qed.

(** The theorem on a column of three values, one of them missing. *)
Lemma shading_extent_covers_sample :
  (∀ x, Num x ∈ [Num 2; NaN; Num 5] → (0 <= x)%Q) ∧
  Num 2 ∈ [Num 2; NaN; Num 5] ∧
  ∃ y_min y_max,
    shading_extent [Num 2; NaN; Num 5] = (Num y_min, Num y_max) ∧
    (y_min <= 2)%Q ∧ (2 <= y_max)%Q.
Proof.
  assert (Hpos : ∀ x, Num x ∈ [Num 2; NaN; Num 5] → (0 <= x)%Q).
  { intros x Hx. rewrite !elem_of_cons, elem_of_nil in Hx.
    destruct Hx as [[= ->] | [[=] | [[= ->] | []]]]; discriminate. }
  assert (Hin : Num 2 ∈ [Num 2; NaN; Num 5]) by left.
  split; [exact Hpos|]. split; [exact Hin|].
  exact (shading_extent_covers [Num 2; NaN; Num 5] 2 Hpos Hin).
Defined.
